(** * ffmpeg-nmlz: a shallow embedding of the peak normaliser

    The development follows [ffmpeg_nmlz/__main__.py] (the preset-aware
    command line tool) and, in [Module main_py], the path logic of
    [ffmpeg_nmlz/main.py] (the older wav-only entry point).

    Modelling choices.
    - A Python [str] is a Rocq [string]: code points 0..255.  In that range
      the regex class [\d] is exactly the ASCII digits.
    - A Python [float] is an IEEE binary64 value, [spec_float] with
      [prec = 53] and [emax = 1024].
    - A [pathlib.Path] is a POSIX pure path: a root and a list of parts.
    - The file system and the external binary are an environment [Env];
      everything observable the program does (printing, launching the
      binary) is appended to a trace that survives a raised exception.
      Printing itself is taken not to fail, and no signal interrupts the
      program. *)

From Stdlib Require Import ZArith Lia Bool Ascii String List.
From Stdlib Require Import Floats.SpecFloat.
From stdpp Require Import base option list gmap strings pretty.

Local Open Scope Z_scope.

Set Warnings "-clear-no-such-hyp".

(** ** Characters and strings *)

Definition LF : ascii := ascii_of_nat 10.

Definition is_digit (c : ascii) : bool :=
  let n := nat_of_ascii c in (48 <=? n)%nat && (n <=? 57)%nat.

Definition is_letter (c : ascii) : bool :=
  let n := nat_of_ascii c in
  ((97 <=? n)%nat && (n <=? 122)%nat) || ((65 <=? n)%nat && (n <=? 90)%nat).

Fixpoint str_all (p : ascii -> bool) (s : string) : bool :=
  match s with
  | EmptyString => true
  | String c s' => p c && str_all p s'
  end.

(** [c in s] for a one-character [c]. *)
Fixpoint str_mem (c : ascii) (s : string) : bool :=
  match s with
  | EmptyString => false
  | String a s' => Ascii.eqb a c || str_mem c s'
  end.

(** The longest prefix of [s] whose characters satisfy [p], and the rest:
    what a greedy [class+] consumes. *)
Fixpoint span (p : ascii -> bool) (s : string) : string * string :=
  match s with
  | EmptyString => (EmptyString, EmptyString)
  | String c s' =>
      if p c then let '(a, b) := span p s' in (String c a, b)
      else (EmptyString, s)
  end.

Fixpoint strip_prefix (p s : string) : option string :=
  match p with
  | EmptyString => Some s
  | String a p' =>
      match s with
      | EmptyString => None
      | String b s' => if Ascii.eqb a b then strip_prefix p' s' else None
      end
  end.

Definition is_empty (s : string) : bool :=
  match s with EmptyString => true | _ => false end.

(** [s.split(sep)] for a one-character separator. *)
Fixpoint split_on (sep : ascii) (s : string) : list string :=
  match s with
  | EmptyString => [EmptyString]
  | String c s' =>
      if Ascii.eqb c sep then EmptyString :: split_on sep s'
      else match split_on sep s' with
           | x :: xs => String c x :: xs
           | [] => [String c EmptyString]
           end
  end.

(** [sep.join(l)]. *)
Fixpoint join (sep : string) (l : list string) : string :=
  match l with
  | [] => ""
  | [x] => x
  | x :: xs => x +:+ sep +:+ join sep xs
  end.

(** [s.rfind(c)]: the index of the last [c], if any. *)
Fixpoint rfind (c : ascii) (s : string) : option nat :=
  match s with
  | EmptyString => None
  | String a s' =>
      match rfind c s' with
      | Some i => Some (S i)
      | None => if Ascii.eqb a c then Some 0%nat else None
      end
  end.

Fixpoint str_take (n : nat) (s : string) : string :=
  match n, s with
  | S n', String c s' => String c (str_take n' s')
  | _, _ => EmptyString
  end.

Fixpoint str_drop (n : nat) (s : string) : string :=
  match n, s with
  | S n', String _ s' => str_drop n' s'
  | _, _ => s
  end.

(** [s.endswith(suffix)]. *)
Fixpoint str_endswith (suffix s : string) : bool :=
  String.eqb s suffix
  || match s with
     | EmptyString => false
     | String _ s' => str_endswith suffix s'
     end.

(** [needle in s]. *)
Fixpoint str_contains (needle s : string) : bool :=
  match strip_prefix needle s with
  | Some _ => true
  | None =>
      match s with
      | EmptyString => false
      | String _ s' => str_contains needle s'
      end
  end.

(** ** Python floats: IEEE binary64 *)

Module Float.

Definition prec : Z := 53.
Definition emax : Z := 1024.

Definition zero : spec_float := S754_zero false.
Definition abs : spec_float -> spec_float := SFabs.
Definition ltb : spec_float -> spec_float -> bool := SFltb.
Definition leb : spec_float -> spec_float -> bool := SFleb.

(** [float(z)] for an integer. *)
Definition of_Z (z : Z) : spec_float := binary_normalize prec emax z 0 false.

(** The binary64 nearest to [(-1)^neg * m / 10^k], ties to even: the value
    [float] gives a decimal literal with digits [m] and [k] of them after
    the point. *)
Definition of_decimal (neg : bool) (m : N) (k : nat) : spec_float :=
  match m with
  | N0 => S754_zero neg
  | Npos p =>
      let '(q, e, l) :=
        SFdiv_core_binary prec emax (Zpos p) 0 (10 ^ Z.of_nat k) 0 in
      binary_round_aux prec emax neg q e l
  end.

Definition digit_value (c : ascii) : N := N.of_nat (nat_of_ascii c - 48).

Fixpoint digits_value (acc : N) (s : string) : N :=
  match s with
  | EmptyString => acc
  | String c s' => digits_value (acc * 10 + digit_value c)%N s'
  end.

(** [float(s)] for [s] over the alphabet of the regex class [[\-\d.]]
    (minus, ASCII digits, dot).  On that alphabet the grammar of [float]
    is: an optional minus, then either digits with an optional dot and
    optional further digits, or a dot and digits.  [None] is
    [ValueError]. *)
Definition of_string (s : string) : option spec_float :=
  let '(neg, body) :=
    match s with
    | String "-"%char r => (true, r)
    | _ => (false, s)
    end in
  let '(ip, r1) := span is_digit body in
  match r1 with
  | EmptyString =>
      if is_empty ip then None
      else Some (of_decimal neg (digits_value 0 ip) 0)
  | String "."%char r2 =>
      let '(fp, r3) := span is_digit r2 in
      if negb (is_empty r3) then None
      else if is_empty ip && is_empty fp then None
      else Some (of_decimal neg (digits_value 0 (ip +:+ fp))
                   (String.length fp))
  | _ => None
  end.

(** [x * 10] rounded to the nearest integer, ties to even, for
    [x = m * 2^e]. *)
Definition round_tenths (m : positive) (e : Z) : Z :=
  if 0 <=? e then Zpos m * 2 ^ e * 10
  else
    let num := Zpos m * 10 in
    let den := 2 ^ (- e) in
    let q := num / den in
    let r := num mod den in
    match 2 * r ?= den with
    | Lt => q
    | Gt => q + 1
    | Eq => if Z.even q then q else q + 1
    end.

(** [format(x, '.1f')]. *)
Definition format_1f (x : spec_float) : string :=
  match x with
  | S754_nan => "nan"
  | S754_infinity s => (if s then "-" else "") +:+ "inf"
  | S754_zero s => (if s then "-" else "") +:+ "0.0"
  | S754_finite s m e =>
      let t := round_tenths m e in
      (if s then "-" else "") +:+ pretty (t / 10) +:+ "." +:+ pretty (t mod 10)
  end.

End Float.

(** Python numbers as far as the gain computation needs them: the literal
    [0] is an [int], the measured volume a [float]. *)
Inductive number :=
  | Int (z : Z)
  | Flt (x : spec_float).

Definition to_float (n : number) : spec_float :=
  match n with
  | Int z => Float.of_Z z
  | Flt x => x
  end.

(** [a > b]; an [int] that converts exactly compares as the float. *)
Definition num_gt (a b : number) : bool := Float.ltb (to_float b) (to_float a).

(** [max(a, b)]: the first argument unless the second is strictly greater. *)
Definition py_max (a b : number) : number := if num_gt b a then b else a.

(** [abs(x)] of a float. *)
Definition py_abs (x : spec_float) : number := Flt (Float.abs x).

(** [f'{n:.1f}']. *)
Definition format_number_1f (n : number) : string := Float.format_1f (to_float n).


(** ** The two regular expressions *)

(** The class [[\-\d.]] of [VOLUME_REGEX]. *)
Definition is_volume_char (c : ascii) : bool :=
  Ascii.eqb c "-" || is_digit c || Ascii.eqb c ".".

(** [VOLUME_REGEX = 'max_volume: ([\-\d.]+) dB\n'], tried at the start of
    [s]: group 1 on success.  The class excludes the space that must follow,
    so giving back characters of the greedy run never helps and the one
    candidate is the longest run. *)
Definition VOLUME_REGEX_match (s : string) : option string :=
  match strip_prefix "max_volume: " s with
  | None => None
  | Some rest =>
      let '(g, rest') := span is_volume_char rest in
      if is_empty g then None
      else match strip_prefix (" dB" +:+ String LF "") rest' with
           | Some _ => Some g
           | None => None
           end
  end.

(** [VOLUME_REGEX.search(s)]: the match at the leftmost position that has
    one; [None] when there is none. *)
Fixpoint VOLUME_REGEX_search (s : string) : option string :=
  match VOLUME_REGEX_match s with
  | Some g => Some g
  | None =>
      match s with
      | EmptyString => None
      | String _ s' => VOLUME_REGEX_search s'
      end
  end.

(** [RE_PRESET.fullmatch(s)] for [RE_PRESET = '([a-zA-Z]+)(\d+)?']: the two
    groups.  A digit is not a letter, so the letters are the longest run of
    letters and whatever follows must be digits only. *)
Definition RE_PRESET_fullmatch (s : string) : option (string * option string) :=
  let '(name, rest) := span is_letter s in
  if is_empty name then None
  else if is_empty rest then Some (name, None)
  else if str_all is_digit rest then Some (name, Some rest)
  else None.

(** ** Pure POSIX paths *)

Record Path := { root : string; parts : list string }.

Global Instance Path_eq_dec : EqDecision Path.
Proof. solve_decision. Defined.

(** [posixpath.splitroot]. *)
Definition splitroot (p : string) : string * string :=
  match p with
  | String "/" (String "/" r) =>
      match r with
      | String "/" _ => ("/", String "/" r)
      | _ => ("//", r)
      end
  | String "/" r => ("/", r)
  | _ => ("", p)
  end.

(** [Path(s)]: empty and ['.'] segments are dropped. *)
Definition Path_of_string (s : string) : Path :=
  let '(rt, rel) := splitroot s in
  {| root := rt;
     parts := filter (fun x => negb (is_empty x) && negb (String.eqb x ".")) (split_on "/" rel) |}.

(** [str(p)]. *)
Definition Path_str (p : Path) : string :=
  let s := root p +:+ join "/" (parts p) in
  if is_empty s then "." else s.

(** [p / s] for a string [s]: an absolute right operand replaces [p]. *)
Definition Path_join (p : Path) (s : string) : Path :=
  let q := Path_of_string s in
  if is_empty (root q) then {| root := root p; parts := parts p ++ parts q |}
  else q.

(** [p.name]. *)
Definition Path_name (p : Path) : string := List.last (parts p) "".

(** [p.parent]. *)
Definition Path_parent (p : Path) : Path :=
  {| root := root p; parts := removelast (parts p) |}.

(** The index of the dot that starts the suffix of a file name: the last
    dot, unless it is the first or the last character
    ([0 < i < len(name) - 1] in pathlib up to Python 3.13). *)
Definition suffix_index (name : string) : option nat :=
  match rfind "." name with
  | Some i =>
      if (0 <? i)%nat && (i <? String.length name - 1)%nat then Some i else None
  | None => None
  end.

(** [p.suffix]. *)
Definition Path_suffix (p : Path) : string :=
  let name := Path_name p in
  match suffix_index name with
  | Some i => str_drop i name
  | None => ""
  end.

(** [p.stem]. *)
Definition Path_stem (p : Path) : string :=
  let name := Path_name p in
  match suffix_index name with
  | Some i => str_take i name
  | None => name
  end.

(** ** Exceptions, observable events and the monad of the program *)

Inductive exception :=
  | FfmpegNmlzError (message : string)
  | PyError (class_name : string).

(** What the program does to the outside world.  [Stdout t] and [Stderr t]
    are [print(t)] and [print(t, file=sys.stderr)] (the newline that [print]
    adds is left implicit); [Popen params] is one launch of the external
    binary, successful or not; [Traceback e] is the traceback that the
    interpreter writes on standard error for an exception nobody caught. *)
Inductive event :=
  | Stdout (text : string)
  | Stderr (text : string)
  | Popen (params : list string)
  | Traceback (e : exception).

Inductive outcome (A : Type) :=
  | Return (a : A)
  | Raise (e : exception).
Arguments Return {A} a.
Arguments Raise {A} e.

(** A computation reads the trace so far and extends it; the trace is kept
    when an exception is raised. *)
Definition Py (A : Type) : Type := list event -> outcome A * list event.

Global Instance Py_ret : MRet Py := fun A a tr => (Return a, tr).

Global Instance Py_bind : MBind Py := fun A B f m tr =>
  match m tr with
  | (Return a, tr') => f a tr'
  | (Raise e, tr') => (Raise e, tr')
  end.

Definition raise {A} (e : exception) : Py A := fun tr => (Raise e, tr).

Definition emit (ev : event) : Py unit := fun tr => (Return tt, tr ++ [ev]).

Definition print (text : string) : Py unit := emit (Stdout text).

Definition lift {A} (o : outcome A) : Py A := fun tr => (o, tr).

(** ** The environment: file system and external binary *)

(** How one [Popen(params, ...)] followed by [communicate()] ends: [Popen]
    raises [FileNotFoundError], or [Popen] raises something else, or the
    process is started and [communicate()] raises ([UnicodeDecodeError] when
    the output is not UTF-8), or [communicate()] returns the decoded text
    and the process has ended with [returncode]. *)
Inductive popen_result :=
  | Launch_FileNotFoundError
  | Launch_other (class_name : string)
  | Communicate_error (class_name : string)
  | Exited (returncode : Z) (stdout : string).

Record Env := {
  (** lines 121-124 of [verify_and_prepare_args]: [Path(output_dir)],
      [os.makedirs] when it is not a directory, [resolve(strict=True)];
      [None] when any of them raises *)
  prepare_output_dir : string -> option Path;
  (** [path.resolve(strict=True)]; [None] when it raises *)
  path_resolve : Path -> option Path;
  (** the class of what [path.resolve(strict=True)] raises when it does:
      [FileNotFoundError], [NotADirectoryError], [PermissionError], ... *)
  resolve_error : Path -> string;
  (** [path.resolve(strict=False)] *)
  path_resolve_lax : Path -> Path;
  (** [open('rb')], [read(1)], [close()] all succeed *)
  can_read : Path -> bool;
  (** [list(ROOT.glob(pattern))], or the exception [glob] raises *)
  glob : string -> outcome (list Path);
  (** the external binary, which may depend on everything done before *)
  run_process : list event -> list string -> popen_result;
  (** [str(x)] of a float, as the f-string of the progress line prints it *)
  float_str : spec_float -> string
}.

(** ** [__main__.py] *)

Record FormatConfig := {
  encoder : string;
  extension : string;
  bitrate : option string
}.

Global Instance FormatConfig_eq_dec : EqDecision FormatConfig.
Proof. solve_decision. Defined.

Record SingleFileConfig := {
  in_path : Path;
  out_path : Path
}.

Definition PRESET_INFO : gmap string FormatConfig :=
  list_to_map [
    ("m4a", {| encoder := "libfdk_aac"; extension := "m4a"; bitrate := Some "128K" |});
    ("aac", {| encoder := "libfdk_aac"; extension := "m4a"; bitrate := Some "128K" |});
    ("mp3", {| encoder := "libmp3lame"; extension := "mp3"; bitrate := Some "192K" |});
    ("opus", {| encoder := "libopus"; extension := "opus"; bitrate := Some "128K" |});
    ("ogg", {| encoder := "libvorbis"; extension := "ogg"; bitrate := Some "160K" |});
    ("wav", {| encoder := "pcm_s16le"; extension := "wav"; bitrate := None |});
    ("flac", {| encoder := "flac"; extension := "flac"; bitrate := None |})
  ].

(** [d[k]] on a dict. *)
Definition getitem {V} (d : gmap string V) (k : string) : Py V :=
  match d !! k with
  | Some v => mret v
  | None => raise (PyError "KeyError")
  end.

(** The parsed command line: [-d], [-e] and the positional [inputs]. *)
Record Args := {
  args_output_dir : string;
  args_extension : option string;
  args_inputs : list string
}.

(** [target_volume = max(abs(max_volume), 0)], the same line in
    [do_normalizing] and in [main.py]'s [normalize]. *)
Definition target_volume (max_volume : spec_float) : number :=
  py_max (py_abs max_volume) (Int 0).

(** Lines 71-72 of [ffmpeg_get_max_volume]: [m.group(1)] on [None] raises
    [AttributeError], [float] on a malformed number [ValueError]. *)
Definition parse_max_volume (stdout : string) : Py spec_float :=
  match VOLUME_REGEX_search stdout with
  | None => raise (PyError "AttributeError")
  | Some g =>
      match Float.of_string g with
      | Some v => mret v
      | None => raise (PyError "ValueError")
      end
  end.

Definition detect_params (in_path : string) : list string :=
  ["ffmpeg"; "-i"; in_path; "-map"; "0:a:0"; "-af"; "volumedetect";
   "-f"; "null"; "null"].

Definition get_out_path (output_dir : Path) (format_config : FormatConfig)
    (in_path : Path) : Path :=
  Path_join output_dir (Path_stem in_path +:+ "-1." +:+ extension format_config).

(** The first loop of [verify_and_prepare_args]: one input item against the
    presets.  The state is the format chosen so far and [input_patterns]. *)
Definition scan_item (st : FormatConfig * list string) (input_item : string)
    : FormatConfig * list string :=
  let '(cfg, input_patterns) := st in
  match RE_PRESET_fullmatch input_item with
  | Some (preset_name, parsed_bitrate) =>
      match PRESET_INFO !! preset_name with
      | Some preset =>
          (match parsed_bitrate with
           | Some d => {| encoder := encoder preset;
                          extension := extension preset;
                          bitrate := Some (d +:+ "K") |}
           | None => preset
           end, input_patterns)
      | None => (cfg, input_patterns ++ [input_item])
      end
  | None => (cfg, input_patterns ++ [input_item])
  end.

Definition scan_inputs (default : FormatConfig) (inputs : list string)
    : FormatConfig * list string :=
  fold_left scan_item inputs (default, []).

(** [list({k: None for k in l}.keys())]: a dict keeps its keys in insertion
    order, and storing under an existing key keeps that key where it is. *)
Fixpoint dict_set {K V} `{EqDecision K} (d : list (K * V)) (k : K) (v : V)
    : list (K * V) :=
  match d with
  | [] => [(k, v)]
  | (k', v') :: d' =>
      if decide (k' = k) then (k', v) :: d' else (k', v') :: dict_set d' k v
  end.

Definition dict_of_keys {K} `{EqDecision K} (l : list K) : list (K * unit) :=
  fold_left (fun d k => dict_set d k tt) l [].

Definition remove_duplicates {K} `{EqDecision K} (l : list K) : list K :=
  map fst (dict_of_keys l).

(** Lines 151-152 of [verify_and_prepare_args]: the [-e] flag replaces the
    extension of the format. *)
Definition override_extension (flag : option string) (cfg : FormatConfig)
    : FormatConfig :=
  match flag with
  | Some ext => {| encoder := encoder cfg; extension := ext; bitrate := bitrate cfg |}
  | None => cfg
  end.

Definition has_wildcard (pattern : string) : bool :=
  str_mem "*" pattern || str_mem "?" pattern.

Section Program.

Variable env : Env.

Definition call_ffmpeg (params : list string) : Py string := fun tr =>
  let tr' := tr ++ [Popen params] in
  match run_process env tr params with
  | Launch_FileNotFoundError =>
      (Raise (FfmpegNmlzError
                "FFmpeg is not installed. Please install FFmpeg first."), tr')
  | Launch_other _ =>
      (Raise (FfmpegNmlzError
                "Failed to start FFmpeg. Please check your FFmpeg installation."), tr')
  | Communicate_error c => (Raise (PyError c), tr')
  | Exited returncode stdout =>
      if negb (returncode =? 0)
      then (Raise (FfmpegNmlzError "FFmpeg exited abnormally."), tr')
      else (Return stdout, tr')
  end.

Definition ffmpeg_get_max_volume (in_path : string) : Py spec_float :=
  stdout ← call_ffmpeg (detect_params in_path);
  parse_max_volume stdout.

Definition convert_params (in_path out_path : string) (volume : number)
    (format_config : FormatConfig) : list string :=
  ["ffmpeg"; "-y"; "-i"; in_path; "-map"; "0:a:0";
   "-af"; "volume=" +:+ format_number_1f volume +:+ "dB";
   "-c:a"; encoder format_config]
  ++ match bitrate format_config with
     | Some b => ["-b:a"; b]
     | None => []
     end
  ++ [out_path].

Definition ffmpeg_convert_with_volume_filter (in_path out_path : string)
    (volume : number) (format_config : FormatConfig) : Py unit :=
  call_ffmpeg (convert_params in_path out_path volume format_config);;
  mret tt.

(** [resolve(strict=True)] is not guarded here: what it raises propagates. *)
Definition parse_file_input (input_item : string) : outcome SingleFileConfig :=
  match path_resolve env (Path_of_string input_item) with
  | None => Raise (PyError (resolve_error env (Path_of_string input_item)))
  | Some p =>
      Return {| in_path := p;
                out_path := Path_join (Path_parent p) (Path_stem p +:+ ".wav") |}
  end.

Definition verify_and_canonicanize_path (path : Path) : Py Path :=
  match path_resolve env path with
  | None => raise (FfmpegNmlzError ("Failed to open file: " +:+ Path_str path))
  | Some path' =>
      if can_read env path' then mret path'
      else raise (FfmpegNmlzError ("Failed to open file: " +:+ Path_str path'))
  end.

Fixpoint verify_all (files : list Path) : Py (list Path) :=
  match files with
  | [] => mret []
  | f :: rest =>
      f' ← verify_and_canonicanize_path f;
      rest' ← verify_all rest;
      mret (f' :: rest')
  end.

(** The second loop of [verify_and_prepare_args]. *)
Fixpoint expand_patterns (input_patterns : list string)
    (input_files : list Path) : Py (list Path) :=
  match input_patterns with
  | [] => mret input_files
  | pattern :: rest =>
      if has_wildcard pattern then
        found ← lift (glob env pattern);
        verified ← verify_all found;
        match found with
        | [] => raise (FfmpegNmlzError ("No files found for pattern: " +:+ pattern))
        | _ => expand_patterns rest (input_files ++ verified)
        end
      else
        f ← verify_and_canonicanize_path (Path_of_string pattern);
        expand_patterns rest (input_files ++ [f])
  end.

Definition verify_and_prepare_args (args : Args)
    : Py (Path * FormatConfig * list Path) :=
  match prepare_output_dir env (args_output_dir args) with
  | None =>
      raise (FfmpegNmlzError
               ("Unable to create output directory: " +:+ args_output_dir args))
  | Some output_dir =>
      default ← getitem PRESET_INFO "wav";
      let '(cfg, input_patterns) := scan_inputs default (args_inputs args) in
      let cfg := override_extension (args_extension args) cfg in
      input_files ← expand_patterns input_patterns [];
      mret (output_dir, cfg, remove_duplicates input_files)
  end.

(** The body of the loop of [do_normalizing]. *)
Definition normalize_file (output_dir : Path) (format_config : FormatConfig)
    (i : nat) (in_path : Path) : Py unit :=
  print ("> File " +:+ pretty (i + 1)%nat +:+ ": " +:+ Path_name in_path);;
  let out_path := get_out_path output_dir format_config in_path in
  max_volume ← ffmpeg_get_max_volume (Path_str in_path);
  print ("    Max volume: " +:+ float_str env max_volume +:+ " dB");;
  print ("    Encoding..." +:+ String LF "");;
  ffmpeg_convert_with_volume_filter (Path_str in_path) (Path_str out_path)
    (target_volume max_volume) format_config.

Fixpoint normalize_files (output_dir : Path) (format_config : FormatConfig)
    (i : nat) (input_paths : list Path) : Py unit :=
  match input_paths with
  | [] => mret tt
  | in_path :: rest =>
      normalize_file output_dir format_config i in_path;;
      normalize_files output_dir format_config (S i) rest
  end.

Definition do_normalizing (args : Args) : Py unit :=
  '(output_dir, format_config, input_paths) ← verify_and_prepare_args args;
  normalize_files output_dir format_config 0 input_paths.

Definition main (args : Args) : Py unit := fun tr =>
  match do_normalizing args tr with
  | (Raise (FfmpegNmlzError message), tr') =>
      (Return tt, tr' ++ [Stderr (String LF "ERROR: " +:+ message)])
  | r => r
  end.

(** The process as the shell sees it: the exit status and the trace.
    Returning from [main] ends the interpreter with status 0; an exception
    nobody catches ends it with status 1, after its traceback. *)
Definition exit_status (r : outcome unit) : Z :=
  match r with
  | Return _ => 0
  | Raise _ => 1
  end.

Definition run (args : Args) : Z * list event :=
  let '(r, tr) := main args [] in
  (exit_status r,
   match r with
   | Return _ => tr
   | Raise e => tr ++ [Traceback e]
   end).

End Program.

(** ** [main.py]: the wav-only entry point *)

Module main_py.
Section Program.

Variable env : Env.

Definition get_path (in_path_str : string) (out_path_str : option string)
    : outcome (Path * Path) :=
  match path_resolve env (Path_of_string in_path_str) with
  | None => Raise (PyError (resolve_error env (Path_of_string in_path_str)))
  | Some in_path =>
      match out_path_str with
      | None =>
          let out_path :=
            if String.eqb (Path_suffix in_path) ".wav"
            then Path_join (Path_parent in_path) (Path_stem in_path +:+ "-1.wav")
            else Path_join (Path_parent in_path) (Path_stem in_path +:+ ".wav") in
          Return (in_path, path_resolve_lax env out_path)
      | Some o =>
          let out_path := Path_of_string o in
          let out_path :=
            if String.eqb (Path_str in_path) (Path_str out_path)
            then Path_join (Path_parent in_path) (Path_stem in_path +:+ "-1.wav")
            else out_path in
          if negb (String.eqb (Path_suffix out_path) ".wav")
          then Raise (PyError "ValueError")
          else Return (in_path, path_resolve_lax env out_path)
      end
  end.

(** Neither [Popen] nor [communicate()] is guarded here: what they raise
    propagates as it is, and the exit status is not looked at. *)
Definition ffmpeg_get_max_volume (in_path : string) : Py spec_float := fun tr =>
  let tr' := tr ++ [Popen (detect_params in_path)] in
  match run_process env tr (detect_params in_path) with
  | Launch_FileNotFoundError => (Raise (PyError "FileNotFoundError"), tr')
  | Launch_other c => (Raise (PyError c), tr')
  | Communicate_error c => (Raise (PyError c), tr')
  | Exited _ stdout => parse_max_volume stdout tr'
  end.

Definition wav_params (in_path out_path : string) (volume : number)
    : list string :=
  ["ffmpeg"; "-y"; "-i"; in_path; "-map"; "0:a:0";
   "-af"; "volume=" +:+ format_number_1f volume +:+ "dB";
   "-c:a"; "pcm_s16le"; "-f"; "wav"; out_path].

(** The process is only waited for: its output goes to [DEVNULL], so
    nothing is read or decoded once it has started. *)
Definition ffmpeg_convert_to_wav (in_path out_path : string)
    (volume : number) : Py unit :=
  if negb (str_endswith ".wav" out_path) then raise (PyError "ValueError")
  else fun tr =>
    let params := wav_params in_path out_path volume in
    let tr' := tr ++ [Popen params] in
    match run_process env tr params with
    | Launch_FileNotFoundError => (Raise (PyError "FileNotFoundError"), tr')
    | Launch_other c => (Raise (PyError c), tr')
    | Communicate_error _ => (Return tt, tr')
    | Exited _ _ => (Return tt, tr')
    end.

Definition normalize (in_path_str : string) (out_path_str : option string)
    : Py unit :=
  '(in_path, out_path) ← lift (get_path in_path_str out_path_str);
  max_volume ← ffmpeg_get_max_volume (Path_str in_path);
  print ("    Max volume: " +:+ float_str env max_volume +:+ " dB");;
  print ("    Encoding..." +:+ String LF "");;
  ffmpeg_convert_to_wav (Path_str in_path) (Path_str out_path)
    (target_volume max_volume).

(** The loop of [main]: nothing is caught. *)
Fixpoint main_loop (i : nat) (inputs : list string) : Py unit :=
  match inputs with
  | [] => mret tt
  | in_file :: rest =>
      print ("> File " +:+ pretty (i + 1)%nat +:+ ": " +:+ in_file);;
      normalize in_file None;;
      main_loop (S i) rest
  end.

Definition main (inputs : list string) : Py unit := main_loop 0 inputs.

End Program.
End main_py.

(** ** Vocabulary of the statements *)

(** The token is taken as a preset by the first loop of
    [verify_and_prepare_args]: [RE_PRESET] matches all of it and the letters
    are a key of [PRESET_INFO]. *)
Definition is_preset (token : string) : bool :=
  match RE_PRESET_fullmatch token with
  | Some (preset_name, _) => bool_decide (is_Some (PRESET_INFO !! preset_name))
  | None => false
  end.

(** A path whose parts are file names: none contains the separator. *)
Definition wf_path (p : Path) : Prop :=
  Forall (fun x => str_mem "/" x = false) (parts p).

(** The position of the first occurrence of [x] in [l]; [length l] when
    there is none. *)
Fixpoint index_of {K} `{EqDecision K} (x : K) (l : list K) : nat :=
  match l with
  | [] => 0
  | y :: l' => if decide (y = x) then 0 else S (index_of x l')
  end.

(** The launches of the external binary recorded in a trace. *)
Fixpoint popen_calls (tr : list event) : list (list string) :=
  match tr with
  | [] => []
  | Popen params :: tr' => params :: popen_calls tr'
  | _ :: tr' => popen_calls tr'
  end.

(** The two launches for one file, given the volume that was measured. *)
Definition calls_for (output_dir : Path) (format_config : FormatConfig)
    (in_path : Path) (max_volume : spec_float) : list (list string) :=
  [detect_params (Path_str in_path);
   convert_params (Path_str in_path)
     (Path_str (get_out_path output_dir format_config in_path))
     (target_volume max_volume) format_config].

(** The binary64 values nearest to 3.2, 2.0 and 1.5. *)
Definition f3_2 : spec_float := S754_finite false 7205759403792794 (-51).
Definition f2_0 : spec_float := S754_finite false 4503599627370496 (-51).
Definition f1_5 : spec_float := S754_finite false 6755399441055744 (-52).

(** What a greedy run leaves behind starts with a character outside the
    class, or is empty. *)
Definition stops (p : ascii -> bool) (r : string) : Prop :=
  match r with
  | EmptyString => True
  | String c _ => p c = false
  end.

(** The entry of [PRESET_INFO] under ['wav']. *)
Definition wav_preset : FormatConfig :=
  {| encoder := "pcm_s16le"; extension := "wav"; bitrate := None |}.

(** The output [main.py]'s [get_path] derives when no output is given, before
    symlinks are resolved: with ["-1"] after the stem or without. *)
Definition wav_candidate (in_path : Path) (dash_one : bool) : Path :=
  Path_join (Path_parent in_path)
    (Path_stem in_path +:+ (if dash_one then "-1.wav" else ".wav")).

(** [e] is what [communicate()] raised after some launch. *)
Definition communicate_raised (env : Env) (e : exception) : Prop :=
  exists tr params c,
    run_process env tr params = Communicate_error c /\ e = PyError c.

(** The class of an exception, as an [except] clause sees it. *)
Definition exception_class (e : exception) : string :=
  match e with
  | FfmpegNmlzError _ => "FfmpegNmlzError"
  | PyError class_name => class_name
  end.

(** A file that was resolved strictly and could be opened and read. *)
Definition checked (env : Env) (f : Path) : Prop :=
  can_read env f = true /\ exists p, path_resolve env p = Some f.

(** The line of the detection report that [VOLUME_REGEX] looks for. *)
Definition volume_line (number : string) : string :=
  "max_volume: " +:+ number +:+ " dB" +:+ String LF "".

(** No match of [VOLUME_REGEX] starts in the first [n] positions of [s]. *)
Definition no_match_before (n : nat) (s : string) : Prop :=
  forall i, (i < n)%nat -> VOLUME_REGEX_match (str_drop i s) = None.

(** ** A small concrete world

    The working directory is [/music] and holds [song.mp3] and [a.wav]; the
    output directory resolves to [/out]; the binary reports a peak of
    -3.2 dB for whatever it is asked to measure. *)

Module Demo.

Definition cwd : Path := Path_of_string "/music".

Definition files : list Path :=
  [Path_of_string "/music/song.mp3"; Path_of_string "/music/a.wav"].

Definition resolve (p : Path) : option Path :=
  let q := if is_empty (root p)
           then {| root := root cwd; parts := parts cwd ++ parts p |}
           else p in
  if bool_decide (q ∈ files) then Some q else None.

Definition expand (pattern : string) : outcome (list Path) :=
  if String.eqb pattern "*.mp3" then Return [Path_of_string "song.mp3"]
  else if String.eqb pattern "*" then
    Return [Path_of_string "song.mp3"; Path_of_string "a.wav"]
  else Return [].

Definition report : string :=
  "[Parsed_volumedetect_0 @ 0x55] max_volume: -3.2 dB" +:+ String LF "".

Definition ffmpeg (history : list event) (params : list string) : popen_result :=
  Exited 0 report.

(** The values printed in this world have one decimal, where [str] and
    the [.1f] format agree. *)
Definition env : Env := {|
  prepare_output_dir := fun _ => Some (Path_of_string "/out");
  path_resolve := resolve;
  resolve_error := fun _ => "FileNotFoundError";
  path_resolve_lax := fun p => p;
  can_read := fun _ => true;
  glob := expand;
  run_process := ffmpeg;
  float_str := Float.format_1f
|}.

(** The same world without the binary on the search path. *)
Definition env_no_ffmpeg : Env := {|
  prepare_output_dir := prepare_output_dir env;
  path_resolve := path_resolve env;
  resolve_error := resolve_error env;
  path_resolve_lax := path_resolve_lax env;
  can_read := can_read env;
  glob := glob env;
  run_process := fun _ _ => Launch_FileNotFoundError;
  float_str := float_str env
|}.

(** The same world with a binary that ends with status 0 and [text]. *)
Definition env_printing (text : string) : Env := {|
  prepare_output_dir := prepare_output_dir env;
  path_resolve := path_resolve env;
  resolve_error := resolve_error env;
  path_resolve_lax := path_resolve_lax env;
  can_read := can_read env;
  glob := glob env;
  run_process := fun _ _ => Exited 0 text;
  float_str := float_str env
|}.

(** The same world with a binary that ends with status 1 after its report. *)
Definition env_failing : Env := {|
  prepare_output_dir := prepare_output_dir env;
  path_resolve := path_resolve env;
  resolve_error := resolve_error env;
  path_resolve_lax := path_resolve_lax env;
  can_read := can_read env;
  glob := glob env;
  run_process := fun _ _ => Exited 1 report;
  float_str := float_str env
|}.

(** The same world with a binary whose output is not UTF-8. *)
Definition env_undecodable : Env := {|
  prepare_output_dir := prepare_output_dir env;
  path_resolve := path_resolve env;
  resolve_error := resolve_error env;
  path_resolve_lax := path_resolve_lax env;
  can_read := can_read env;
  glob := glob env;
  run_process := fun _ _ => Communicate_error "UnicodeDecodeError";
  float_str := float_str env
|}.

(** The same world in which the output directory cannot be made. *)
Definition env_no_output_dir : Env := {|
  prepare_output_dir := fun _ => None;
  path_resolve := path_resolve env;
  resolve_error := resolve_error env;
  path_resolve_lax := path_resolve_lax env;
  can_read := can_read env;
  glob := glob env;
  run_process := run_process env;
  float_str := float_str env
|}.

Definition args (inputs : list string) : Args :=
  {| args_output_dir := "/out"; args_extension := None; args_inputs := inputs |}.

End Demo.

(** * Properties *)

(** ** Floats: a parsed number is never a NaN *)

Section FloatFacts.

Variables prec emax : Z.

Lemma shr_1_nonneg mrs : 0 <= shr_m mrs -> 0 <= shr_m (shr_1 mrs).
Proof.
  destruct mrs as [m r s]; simpl.
  destruct m as [|[p|p|]|[p|p|]]; simpl; lia.
Qed.

Lemma iter_shr_1_nonneg p :
  forall mrs, 0 <= shr_m mrs -> 0 <= shr_m (SpecFloat.iter_pos shr_1 p mrs).
Proof.
  induction p as [p IH|p IH|]; intros mrs H; simpl;
    auto using shr_1_nonneg.
Qed.

Lemma shr_fexp_nonneg m e l :
  0 <= m -> 0 <= shr_m (fst (shr_fexp prec emax m e l)).
Proof.
  intros H. unfold shr_fexp, shr.
  assert (Hm : 0 <= shr_m (shr_record_of_loc m l))
    by (destruct l as [|[]]; exact H).
  destruct (fexp prec emax (Zdigits2 m + e) - e); simpl; auto.
  now apply iter_shr_1_nonneg.
Qed.

Lemma round_nearest_even_nonneg m l :
  0 <= m -> 0 <= round_nearest_even m l.
Proof.
  intros H. destruct l as [|[]]; simpl; try lia.
  destruct (Z.even m); lia.
Qed.

Lemma binary_round_aux_not_nan s m e l :
  0 <= m -> binary_round_aux prec emax s m e l <> S754_nan.
Proof.
  intros H. unfold binary_round_aux.
  pose proof (shr_fexp_nonneg m e l H) as H1.
  destruct (shr_fexp prec emax m e l) as [mrs' e']. simpl in H1.
  pose proof (round_nearest_even_nonneg _ (loc_of_shr_record mrs') H1) as H2.
  pose proof (shr_fexp_nonneg _ e' loc_Exact H2) as H3.
  destruct (shr_fexp prec emax _ e' loc_Exact) as [mrs'' e'']. simpl in H3.
  destruct (shr_m mrs'') as [|q|q]; try discriminate; try lia.
  destruct (e'' <=? emax - prec); discriminate.
Qed.

Lemma SFdiv_core_binary_nonneg (m1 m2 : positive) e1 e2 :
  0 <= fst (fst (SFdiv_core_binary prec emax (Zpos m1) e1 (Zpos m2) e2)).
Proof.
  unfold SFdiv_core_binary.
  set (sh := e1 - e2 - _).
  set (m' := match sh with Zpos _ => _ | Z0 => _ | Zneg _ => _ end).
  assert (Hm' : 0 <= m').
  { subst m'. destruct sh; try lia. apply Z.shiftl_nonneg. lia. }
  pose proof (Z.div_pos m' (Zpos m2) Hm' ltac:(lia)) as Hq.
  unfold Z.div in Hq.
  destruct (Z.div_eucl m' (Zpos m2)) as [q r]. exact Hq.
Qed.

End FloatFacts.

Lemma of_decimal_not_nan neg m k : Float.of_decimal neg m k <> S754_nan.
Proof.
  unfold Float.of_decimal. destruct m as [|p]; [discriminate|].
  assert (Hk : 0 < 10 ^ Z.of_nat k) by (apply Z.pow_pos_nonneg; lia).
  destruct (10 ^ Z.of_nat k) as [|d|d] eqn:Hd; try lia.
  pose proof (SFdiv_core_binary_nonneg Float.prec Float.emax p d 0 0) as Hq.
  destruct (SFdiv_core_binary _ _ _ _ _ _) as [[q e] l]. simpl in Hq.
  now apply binary_round_aux_not_nan.
Qed.

Lemma of_string_not_nan s v : Float.of_string s = Some v -> v <> S754_nan.
Proof.
  unfold Float.of_string.
  destruct (match s with String "-"%char r => (true, r) | _ => (false, s) end)
    as [neg body].
  destruct (span is_digit body) as [ip r1].
  destruct r1 as [|c r2].
  - destruct (is_empty ip); [discriminate|].
    intros [= <-]. apply of_decimal_not_nan.
  - destruct (Ascii.eqb_spec c ".") as [->|Hc].
    + destruct (span is_digit r2) as [fp r3].
      destruct (negb (is_empty r3)); [discriminate|].
      destruct (is_empty ip && is_empty fp); [discriminate|].
      intros [= <-]. apply of_decimal_not_nan.
    + intros H. exfalso.
      destruct c as [[] [] [] [] [] [] [] []]; try discriminate H.
      now apply Hc.
Qed.

Lemma abs_nonneg v : v <> S754_nan -> Float.leb Float.zero (Float.abs v) = true.
Proof. destruct v; intros H; try reflexivity. now destruct H. Qed.

Lemma target_volume_abs v : target_volume v = Flt (Float.abs v).
Proof. unfold target_volume, py_max, num_gt, py_abs. now destruct v. Qed.

(** ** C1: the target gain *)

(** [f3_2] is within half a unit in the last place of 32/10, and the other
    two are exact. *)
Example f3_2_nearest : Z.abs (10 * 7205759403792794 - 32 * 2 ^ 51) <= 5.
Proof. vm_compute. discriminate. Qed.

Example f2_0_exact : 4503599627370496 = 2 * 2 ^ 51.
Proof. reflexivity. Qed.

Example f1_5_exact : 10 * 6755399441055744 = 15 * 2 ^ 52.
Proof. reflexivity. Qed.

(** ** Strings *)

Lemma str_app_nil_l s : "" +:+ s = s.
Proof. reflexivity. Qed.

Lemma str_app_cons a s t : String a s +:+ t = String a (s +:+ t).
Proof. reflexivity. Qed.

Lemma str_app_nil_r s : s +:+ "" = s.
Proof. induction s as [|a s IH]; [reflexivity|]. now rewrite str_app_cons, IH. Qed.

Lemma str_app_assoc s t u : s +:+ t +:+ u = (s +:+ t) +:+ u.
Proof.
  induction s as [|a s IH]; [reflexivity|]. now rewrite !str_app_cons, IH.
Qed.

Lemma str_app_length s t :
  String.length (s +:+ t) = (String.length s + String.length t)%nat.
Proof.
  induction s as [|a s IH]; [reflexivity|]. rewrite str_app_cons. simpl. now rewrite IH.
Qed.

Lemma is_empty_true s : is_empty s = true <-> s = "".
Proof. destruct s; simpl; split; congruence. Qed.

Lemma is_empty_false s : is_empty s = false <-> s <> "".
Proof. destruct s; simpl; split; congruence. Qed.

Lemma str_all_app p s t : str_all p (s +:+ t) = str_all p s && str_all p t.
Proof.
  induction s as [|a s IH]; [reflexivity|].
  rewrite str_app_cons. simpl. now rewrite IH, andb_assoc.
Qed.

Lemma str_mem_app c s t : str_mem c (s +:+ t) = str_mem c s || str_mem c t.
Proof.
  induction s as [|a s IH]; [reflexivity|].
  rewrite str_app_cons. simpl. now rewrite IH, orb_assoc.
Qed.

Lemma strip_prefix_app p s : strip_prefix p (p +:+ s) = Some s.
Proof.
  induction p as [|a p IH]; [reflexivity|].
  rewrite str_app_cons. simpl. now rewrite Ascii.eqb_refl.
Qed.

Lemma strip_prefix_Some p : forall s r, strip_prefix p s = Some r -> s = p +:+ r.
Proof.
  induction p as [|a p IH]; intros s r H; simpl in H.
  - now injection H as ->.
  - destruct s as [|b s]; [discriminate|].
    destruct (Ascii.eqb_spec a b) as [->|]; [|discriminate].
    rewrite str_app_cons. f_equal. now apply IH.
Qed.

Lemma span_spec p : forall s a b,
  span p s = (a, b) -> s = a +:+ b /\ str_all p a = true /\ stops p b.
Proof.
  induction s as [|c s IH]; intros a b H; simpl in H.
  - injection H as <- <-. now repeat split.
  - destruct (p c) eqn:Hc.
    + destruct (span p s) as [a' b'] eqn:Hs. injection H as <- <-.
      destruct (IH a' b' eq_refl) as (-> & Ha & Hb).
      repeat split; [|exact Hb]. simpl. now rewrite Hc, Ha.
    + injection H as <- <-. repeat split. exact Hc.
Qed.

Lemma span_intro p : forall g r,
  str_all p g = true -> stops p r -> span p (g +:+ r) = (g, r).
Proof.
  induction g as [|c g IH]; intros r Hg Hr.
  - rewrite str_app_nil_l. destruct r as [|c r]; [reflexivity|].
    simpl in *. now rewrite Hr.
  - simpl in Hg. apply andb_true_iff in Hg as [Hc Hg].
    rewrite str_app_cons. simpl. now rewrite Hc, (IH r Hg Hr).
Qed.

(** ** The regular expressions are what they stand for *)

(** [VOLUME_REGEX] matches at the start of [s] with group [g] exactly when
    [s] is the literal, a non-empty run [g] of class characters, the
    literal [" dB\n"], and anything. *)
Lemma VOLUME_REGEX_match_intro g post :
  str_all is_volume_char g = true -> g <> "" ->
  VOLUME_REGEX_match (volume_line g +:+ post) = Some g.
Proof.
  intros Hg Hne. unfold VOLUME_REGEX_match, volume_line.
  rewrite <- !str_app_assoc, strip_prefix_app.
  rewrite (span_intro is_volume_char g _ Hg) by reflexivity.
  apply is_empty_false in Hne. rewrite Hne.
  now rewrite (str_app_assoc " dB"), strip_prefix_app.
Qed.

Lemma VOLUME_REGEX_match_elim s g :
  VOLUME_REGEX_match s = Some g ->
  exists post, s = volume_line g +:+ post
               /\ str_all is_volume_char g = true /\ g <> "".
Proof.
  unfold VOLUME_REGEX_match, volume_line. intros H.
  destruct (strip_prefix "max_volume: " s) as [rest|] eqn:H1; [|discriminate].
  apply strip_prefix_Some in H1 as ->.
  destruct (span is_volume_char rest) as [g' rest'] eqn:H2.
  apply span_spec in H2 as (-> & Hg & _).
  destruct (is_empty g') eqn:He; [discriminate|].
  destruct (strip_prefix _ rest') as [post|] eqn:H3; [|discriminate].
  apply strip_prefix_Some in H3 as ->. injection H as <-.
  exists post. rewrite <- !str_app_assoc.
  repeat split; [exact Hg|]. now apply is_empty_false.
Qed.

Lemma no_match_before_tail a n s :
  no_match_before (S n) (String a s) -> no_match_before n s.
Proof. intros H i Hi. apply (H (S i)). lia. Qed.

Lemma VOLUME_REGEX_search_eq s :
  VOLUME_REGEX_search s =
  match VOLUME_REGEX_match s with
  | Some g => Some g
  | None => match s with
            | EmptyString => None
            | String _ s' => VOLUME_REGEX_search s'
            end
  end.
Proof. now destruct s. Qed.

(** [search] skips a prefix in which no match starts. *)
Lemma VOLUME_REGEX_search_skip : forall pre rest,
  no_match_before (String.length pre) (pre +:+ rest) ->
  VOLUME_REGEX_search (pre +:+ rest) = VOLUME_REGEX_search rest.
Proof.
  induction pre as [|a pre IH]; intros rest H; [reflexivity|].
  rewrite str_app_cons in *. simpl String.length in H.
  pose proof (H 0%nat ltac:(lia)) as H0. simpl str_drop in H0.
  rewrite VOLUME_REGEX_search_eq, H0. apply IH. eapply no_match_before_tail, H.
Qed.

Lemma VOLUME_REGEX_search_here s g :
  VOLUME_REGEX_match s = Some g -> VOLUME_REGEX_search s = Some g.
Proof. intros H. now rewrite VOLUME_REGEX_search_eq, H. Qed.

Lemma VOLUME_REGEX_search_first pre g post :
  str_all is_volume_char g = true -> g <> "" ->
  no_match_before (String.length pre) (pre +:+ volume_line g +:+ post) ->
  VOLUME_REGEX_search (pre +:+ volume_line g +:+ post) = Some g.
Proof.
  intros Hg Hne Hpre. rewrite VOLUME_REGEX_search_skip by exact Hpre.
  now apply VOLUME_REGEX_search_here, VOLUME_REGEX_match_intro.
Qed.

(** Whatever [search] returns was captured from a line of the text. *)
Lemma VOLUME_REGEX_search_elim : forall s g,
  VOLUME_REGEX_search s = Some g ->
  exists pre post, s = pre +:+ volume_line g +:+ post
                   /\ str_all is_volume_char g = true /\ g <> "".
Proof.
  induction s as [|a s IH]; intros g H; rewrite VOLUME_REGEX_search_eq in H.
  - discriminate.
  - destruct (VOLUME_REGEX_match (String a s)) eqn:Hm.
    + injection H as ->. apply VOLUME_REGEX_match_elim in Hm as (post & -> & Hg).
      now exists "", post.
    + destruct (IH g H) as (pre & post & -> & Hg).
      exists (String a pre), post. now rewrite str_app_cons.
Qed.

(** ** C9: the three ways a launch fails *)

Lemma call_ffmpeg_eq env params tr :
  call_ffmpeg env params tr =
  (match run_process env tr params with
   | Launch_FileNotFoundError =>
       Raise (FfmpegNmlzError "FFmpeg is not installed. Please install FFmpeg first.")
   | Launch_other _ =>
       Raise (FfmpegNmlzError
                "Failed to start FFmpeg. Please check your FFmpeg installation.")
   | Communicate_error c => Raise (PyError c)
   | Exited rc out =>
       if rc =? 0 then Return out
       else Raise (FfmpegNmlzError "FFmpeg exited abnormally.")
   end, tr ++ [Popen params]).
Proof.
  unfold call_ffmpeg. destruct (run_process env tr params) as [| | |rc out];
    try reflexivity.
  now destruct (rc =? 0).
Qed.

(** C9, as the code has it.  There is one class of application error.
    Launching the external binary raises it with the message "FFmpeg is not
    installed..." when the binary cannot be located, with the message
    "Failed to start FFmpeg..." when [Popen] fails in any other way, and
    with the message "FFmpeg exited abnormally." when the output was read
    and the process ended with a non-zero status.  The three messages are
    pairwise different, in particular the missing-binary one and the
    non-zero-exit one, and they are all that tells the failures apart: the
    class is the same.  When the output was read and the process ended with
    status 0, the captured text, standard output and standard error merged,
    is returned.  In every case the one launch is recorded. *)
Theorem call_ffmpeg_failure_modes env params tr :
  (run_process env tr params = Launch_FileNotFoundError ->
   call_ffmpeg env params tr =
   (Raise (FfmpegNmlzError "FFmpeg is not installed. Please install FFmpeg first."),
    tr ++ [Popen params]))
  /\ (forall c, run_process env tr params = Launch_other c ->
      call_ffmpeg env params tr =
      (Raise (FfmpegNmlzError
                "Failed to start FFmpeg. Please check your FFmpeg installation."),
       tr ++ [Popen params]))
  /\ (forall rc out, run_process env tr params = Exited rc out -> rc <> 0 ->
      call_ffmpeg env params tr =
      (Raise (FfmpegNmlzError "FFmpeg exited abnormally."), tr ++ [Popen params]))
  /\ (forall out, run_process env tr params = Exited 0 out ->
      call_ffmpeg env params tr = (Return out, tr ++ [Popen params]))
  /\ (forall e tr',
      call_ffmpeg env params tr = (Raise e, tr') ->
      (forall c, run_process env tr params <> Communicate_error c) ->
      exception_class e = "FfmpegNmlzError"
      /\ exists message,
           e = FfmpegNmlzError message
           /\ message ∈ ["FFmpeg is not installed. Please install FFmpeg first.";
                         "Failed to start FFmpeg. Please check your FFmpeg installation.";
                         "FFmpeg exited abnormally."])
  /\ "FFmpeg is not installed. Please install FFmpeg first."
     <> "FFmpeg exited abnormally."
  /\ "FFmpeg is not installed. Please install FFmpeg first."
     <> "Failed to start FFmpeg. Please check your FFmpeg installation."
  /\ "Failed to start FFmpeg. Please check your FFmpeg installation."
     <> "FFmpeg exited abnormally.".
Proof.
  rewrite call_ffmpeg_eq. repeat split; try discriminate.
  - now intros ->.
  - now intros c ->.
  - intros rc out -> Hrc. now apply Z.eqb_neq in Hrc as ->.
  - now intros out ->.
  - destruct (run_process env tr params) as [| |c|rc out]; try destruct (rc =? 0);
      try discriminate; try (now injection H as <- _).
    now destruct (H0 c).
  - destruct (run_process env tr params) as [| |c|rc out]; try destruct (rc =? 0);
      try discriminate; try (injection H as <- _; eexists; split; [reflexivity|set_solver]).
    now destruct (H0 c).
Qed.

Lemma call_ffmpeg_failure_modes_witness :
  call_ffmpeg Demo.env_no_ffmpeg (detect_params "/music/song.mp3") [] =
  (Raise (FfmpegNmlzError "FFmpeg is not installed. Please install FFmpeg first."),
   [Popen (detect_params "/music/song.mp3")])
  /\ call_ffmpeg Demo.env (detect_params "/music/song.mp3") [] =
     (Return Demo.report, [Popen (detect_params "/music/song.mp3")])
  /\ exception_class (FfmpegNmlzError "FFmpeg exited abnormally.") = "FfmpegNmlzError".
Proof.
  split; [|split].
  - apply (proj1 (call_ffmpeg_failure_modes Demo.env_no_ffmpeg
                    (detect_params "/music/song.mp3") [])).
    reflexivity.
  - apply (proj1 (proj2 (proj2 (proj2 (call_ffmpeg_failure_modes Demo.env
                    (detect_params "/music/song.mp3") []))))).
    reflexivity.
  - apply (proj1 (proj2 (proj2 (proj2 (proj2 (call_ffmpeg_failure_modes
                    Demo.env_failing (detect_params "/music/song.mp3") [])))))
             (FfmpegNmlzError "FFmpeg exited abnormally.")
             [Popen (detect_params "/music/song.mp3")]).
    + reflexivity.
    + discriminate.
Defined.

(** C9 as stated fails on the kinds of error.  The error for a missing
    binary and the error for a non-zero exit are of one and the same class,
    so no handler can tell them apart by type; and a process that was
    started but whose output is not UTF-8 makes the call raise
    [UnicodeDecodeError], which is none of the errors named. *)
Lemma call_ffmpeg_error_class_counterexample :
  call_ffmpeg Demo.env_no_ffmpeg (detect_params "/music/song.mp3") []
  = (Raise (FfmpegNmlzError "FFmpeg is not installed. Please install FFmpeg first."),
     [Popen (detect_params "/music/song.mp3")])
  /\ call_ffmpeg Demo.env_failing (detect_params "/music/song.mp3") []
     = (Raise (FfmpegNmlzError "FFmpeg exited abnormally."),
        [Popen (detect_params "/music/song.mp3")])
  /\ exception_class
       (FfmpegNmlzError "FFmpeg is not installed. Please install FFmpeg first.")
     = exception_class (FfmpegNmlzError "FFmpeg exited abnormally.")
  /\ call_ffmpeg Demo.env_undecodable (detect_params "/music/song.mp3") []
     = (Raise (PyError "UnicodeDecodeError"),
        [Popen (detect_params "/music/song.mp3")]).
Proof. repeat split; reflexivity. Qed.

(** ** C2: extracting the measured volume *)

Lemma parse_max_volume_first_match pre g post v tr :
  str_all is_volume_char g = true -> g <> "" ->
  Float.of_string g = Some v ->
  no_match_before (String.length pre) (pre +:+ volume_line g +:+ post) ->
  parse_max_volume (pre +:+ volume_line g +:+ post) tr = (Return v, tr).
Proof.
  intros Hg Hne Hv Hpre. unfold parse_max_volume.
  now rewrite (VOLUME_REGEX_search_first pre g post Hg Hne Hpre), Hv.
Qed.

(** C2, as the code has it.  The pattern ends with a line feed, and the
    match that counts is the leftmost one.  So: when the detection pass ends
    with status 0 and its text is [pre], then the line
    [max_volume: -3.2 dB] with its line feed, then [post], and no match of
    the pattern starts inside [pre], the extraction returns the float -3.2;
    likewise 1.5 for the line [max_volume: 1.5 dB]. *)
Theorem max_volume_extraction_first_line env in_path pre post tr number v :
  (number, v) = ("-3.2", SFopp f3_2) \/ (number, v) = ("1.5", f1_5) ->
  run_process env tr (detect_params in_path)
  = Exited 0 (pre +:+ volume_line number +:+ post) ->
  no_match_before (String.length pre) (pre +:+ volume_line number +:+ post) ->
  ffmpeg_get_max_volume env in_path tr
  = (Return v, tr ++ [Popen (detect_params in_path)]).
Proof.
  intros Hnv Hrun Hpre. unfold ffmpeg_get_max_volume, mbind, Py_bind.
  rewrite call_ffmpeg_eq, Hrun. simpl.
  apply parse_max_volume_first_match; try exact Hpre;
    destruct Hnv as [[= -> ->]|[= -> ->]]; try reflexivity; discriminate.
Qed.

Lemma max_volume_extraction_first_line_witness :
  ffmpeg_get_max_volume Demo.env "/music/song.mp3" []
  = (Return (SFopp f3_2), [Popen (detect_params "/music/song.mp3")]).
Proof.
  apply (max_volume_extraction_first_line Demo.env "/music/song.mp3"
           "[Parsed_volumedetect_0 @ 0x55] " "" [] "-3.2" (SFopp f3_2)).
  - left. reflexivity.
  - reflexivity.
  - intros i Hi. do 31 (destruct i as [|i]; [reflexivity|]). simpl in Hi. lia.
Defined.

(** C2 as stated fails on two texts that contain [max_volume: -3.2 dB]:
    without the line feed after [dB] the pattern does not match and
    [m.group(1)] raises [AttributeError]; and after an earlier line with
    another value it is that earlier value which is returned. *)
Lemma max_volume_extraction_counterexample :
  (str_contains "max_volume: -3.2 dB" "max_volume: -3.2 dB" = true
   /\ parse_max_volume "max_volume: -3.2 dB" []
      = (Raise (PyError "AttributeError"), []))
  /\ (str_contains "max_volume: -3.2 dB" (volume_line "1.5" +:+ volume_line "-3.2") = true
      /\ parse_max_volume (volume_line "1.5" +:+ volume_line "-3.2") []
         = (Return f1_5, [])
      /\ f1_5 <> SFopp f3_2).
Proof. repeat split; try reflexivity. discriminate. Qed.

(** ** Preset tokens *)

Lemma digit_not_letter c : is_digit c = true -> is_letter c = false.
Proof. destruct c as [[] [] [] [] [] [] [] []]; try discriminate; reflexivity. Qed.

Lemma str_all_not_mem p c : p c = false ->
  forall s, str_all p s = true -> str_mem c s = false.
Proof.
  intros Hc. induction s as [|a s IH]; intros H; [reflexivity|].
  simpl in *. apply andb_true_iff in H as [Ha Hs].
  rewrite (IH Hs), orb_false_r. apply Ascii.eqb_neq. congruence.
Qed.

Lemma stops_letter_digits d : str_all is_digit d = true -> stops is_letter d.
Proof.
  destruct d as [|c d]; simpl; [trivial|].
  intros H. apply andb_true_iff in H as [Hc _]. now apply digit_not_letter.
Qed.

(** [RE_PRESET] matches all of [s] exactly when [s] is a non-empty run of
    letters followed by digits only; the second group is [None] when there
    are no digits. *)
Lemma RE_PRESET_fullmatch_intro name d :
  str_all is_letter name = true -> name <> "" -> str_all is_digit d = true ->
  RE_PRESET_fullmatch (name +:+ d)
  = Some (name, if is_empty d then None else Some d).
Proof.
  intros Hn Hne Hd. unfold RE_PRESET_fullmatch.
  rewrite (span_intro is_letter name d Hn (stops_letter_digits d Hd)).
  apply is_empty_false in Hne. rewrite Hne.
  destruct (is_empty d); [reflexivity|]. now rewrite Hd.
Qed.

Lemma RE_PRESET_fullmatch_elim s name d :
  RE_PRESET_fullmatch s = Some (name, d) ->
  s = name +:+ default "" d
  /\ str_all is_letter name = true /\ name <> ""
  /\ str_all is_digit (default "" d) = true /\ d <> Some "".
Proof.
  unfold RE_PRESET_fullmatch.
  destruct (span is_letter s) as [n r] eqn:Hs.
  apply span_spec in Hs as (-> & Hn & _).
  destruct (is_empty n) eqn:Hne; [discriminate|].
  apply is_empty_false in Hne.
  destruct (is_empty r) eqn:Hr.
  - apply is_empty_true in Hr as ->. intros [= <- <-]. simpl.
    rewrite str_app_nil_r. repeat split; try assumption; discriminate.
  - destruct (str_all is_digit r) eqn:Hd; [|discriminate].
    intros [= <- <-]. simpl. repeat split; try assumption.
    apply is_empty_false in Hr. congruence.
Qed.

(** A token with a wildcard in it is never taken as a preset. *)
Lemma wildcard_not_preset token : has_wildcard token = true -> is_preset token = false.
Proof.
  unfold has_wildcard, is_preset. intros Hw.
  destruct (RE_PRESET_fullmatch token) as [[name d]|] eqn:Hm; [|reflexivity].
  apply RE_PRESET_fullmatch_elim in Hm as (-> & Hn & _ & Hd & _).
  rewrite !str_mem_app in Hw.
  rewrite (str_all_not_mem is_letter "*" eq_refl name Hn) in Hw.
  rewrite (str_all_not_mem is_letter "?" eq_refl name Hn) in Hw.
  rewrite (str_all_not_mem is_digit "*" eq_refl _ Hd) in Hw.
  rewrite (str_all_not_mem is_digit "?" eq_refl _ Hd) in Hw.
  discriminate.
Qed.

Lemma scan_item_not_preset cfg pats token :
  is_preset token = false -> scan_item (cfg, pats) token = (cfg, pats ++ [token]).
Proof.
  unfold is_preset, scan_item.
  destruct (RE_PRESET_fullmatch token) as [[name d]|]; [|reflexivity].
  destruct (PRESET_INFO !! name); [|reflexivity].
  intros H. apply bool_decide_eq_false in H. destruct H. eauto.
Qed.

Lemma scan_item_preset cfg pats token :
  is_preset token = true ->
  exists cfg', scan_item (cfg, pats) token = (cfg', pats).
Proof.
  unfold is_preset, scan_item.
  destruct (RE_PRESET_fullmatch token) as [[name d]|]; [|discriminate].
  destruct (PRESET_INFO !! name) as [preset|]; [eauto|].
  intros H. apply bool_decide_eq_true in H. now destruct H.
Qed.

(** [input_patterns] is the input list without the preset tokens, in order. *)
Lemma scan_patterns : forall inputs cfg pats,
  snd (fold_left scan_item inputs (cfg, pats))
  = pats ++ filter (fun t => is_preset t = false) inputs.
Proof.
  induction inputs as [|t inputs IH]; intros cfg pats; cbn [fold_left].
  - simpl. now rewrite app_nil_r.
  - destruct (is_preset t) eqn:Ht.
    + destruct (scan_item_preset cfg pats t Ht) as [cfg' ->].
      rewrite IH. now rewrite filter_cons_False by (simpl; congruence).
    + rewrite (scan_item_not_preset cfg pats t Ht), IH.
      rewrite filter_cons_True by exact Ht. now rewrite <- app_assoc.
Qed.

Lemma scan_no_preset : forall inputs cfg pats,
  (forall t, t ∈ inputs -> is_preset t = false) ->
  fold_left scan_item inputs (cfg, pats) = (cfg, pats ++ inputs).
Proof.
  induction inputs as [|t inputs IH]; intros cfg pats H; cbn [fold_left].
  - now rewrite app_nil_r.
  - rewrite scan_item_not_preset by (apply H; left).
    rewrite IH by (intros t' Ht'; apply H; now right).
    now rewrite <- app_assoc.
Qed.

(** A preset whose name is letters only, followed by digits, selects the
    preset and overrides its bitrate: the part of C3 the code does. *)
Lemma scan_item_preset_with_bitrate cfg pats name preset d :
  PRESET_INFO !! name = Some preset ->
  str_all is_letter name = true ->
  str_all is_digit d = true -> d <> "" ->
  scan_item (cfg, pats) (name +:+ d)
  = ({| encoder := encoder preset; extension := extension preset;
        bitrate := Some (d +:+ "K") |}, pats).
Proof.
  intros Hp Hn Hd Hne. unfold scan_item.
  assert (Hname : name <> "") by (intros ->; vm_compute in Hp; discriminate).
  rewrite (RE_PRESET_fullmatch_intro name d Hn Hname Hd).
  apply is_empty_false in Hne. now rewrite Hne, Hp.
Qed.


(** The presets that can be selected at all are the five whose names have no
    digit in them: a token is taken as a preset exactly when it is one of
    those names followed by digits. *)
Lemma is_preset_iff token :
  is_preset token = true <->
  exists name d, token = name +:+ d
                 /\ name ∈ ["aac"; "opus"; "ogg"; "wav"; "flac"]
                 /\ str_all is_digit d = true.
Proof.
  split.
  - unfold is_preset.
    destruct (RE_PRESET_fullmatch token) as [[n d]|] eqn:Hm; [|discriminate].
    intros H. apply bool_decide_eq_true in H as [preset Hp].
    apply RE_PRESET_fullmatch_elim in Hm as (-> & Hn & _ & Hd & _).
    exists n, (default "" d). repeat split; [|exact Hd].
    apply elem_of_list_to_map_2 in Hp. set_unfold in Hp.
    destruct Hp as [Hp|[Hp|[Hp|[Hp|[Hp|[Hp|[Hp|[]]]]]]]];
      injection Hp as -> _; try discriminate Hn; set_solver.
  - intros (name & d & -> & Hname & Hd). unfold is_preset. set_unfold in Hname.
    destruct Hname as [->|[->|[->|[->|[->|[]]]]]];
      rewrite RE_PRESET_fullmatch_intro by (try exact Hd; easy); reflexivity.
Qed.

(** ** C3: preset tokens whose name contains a digit *)

(** C3 at the failing inputs.  [RE_PRESET] takes the letters of [mp3320] to
    be [mp] and its digits to be [3320]; [mp] is no key of [PRESET_INFO], so
    the token becomes a file pattern and the format stays the default: the
    run then reports that the file [mp3320] cannot be opened.  The same
    happens to [mp3], and [m4a] does not match the pattern at all: the two
    entries of the table with a digit in their name cannot be selected,
    while [aac320] selects its preset with bitrate [320K]. *)
Theorem preset_with_digit_in_name_not_selected :
  RE_PRESET_fullmatch "mp3320" = Some ("mp", Some "3320")
  /\ PRESET_INFO !! "mp" = None
  /\ is_Some (PRESET_INFO !! "mp3")
  /\ scan_inputs wav_preset ["mp3320"] = (wav_preset, ["mp3320"])
  /\ scan_inputs wav_preset ["mp3"] = (wav_preset, ["mp3"])
  /\ RE_PRESET_fullmatch "m4a" = None
  /\ is_Some (PRESET_INFO !! "m4a")
  /\ scan_inputs wav_preset ["m4a128"] = (wav_preset, ["m4a128"])
  /\ scan_inputs wav_preset ["aac320"]
     = ({| encoder := "libfdk_aac"; extension := "m4a"; bitrate := Some "320K" |}, [])
  /\ run Demo.env (Demo.args ["mp3320"; "song.mp3"])
     = (0, [Stderr (String LF "ERROR: Failed to open file: mp3320")]).
Proof. repeat split; try (vm_compute; reflexivity); vm_compute; eauto. Qed.

(** The last preset token of the command line decides the format. *)
Lemma last_preset_wins default inputs token :
  is_preset token = true ->
  fst (scan_inputs default (inputs ++ [token]))
  = fst (scan_item (default, []) token).
Proof.
  intros Ht. unfold scan_inputs. rewrite fold_left_app. cbn [fold_left].
  destruct (fold_left scan_item inputs (default, [])) as [cfg pats].
  unfold is_preset in Ht. unfold scan_item.
  destruct (RE_PRESET_fullmatch token) as [[name d]|]; [|discriminate].
  destruct (PRESET_INFO !! name) as [preset|]; [reflexivity|].
  apply bool_decide_eq_true in Ht. now destruct Ht.
Qed.

(** ** C10: the default format *)

Lemma PRESET_INFO_wav : PRESET_INFO !! "wav" = Some wav_preset.
Proof. reflexivity. Qed.

Lemma verify_and_prepare_args_eq env args tr :
  verify_and_prepare_args env args tr =
  match prepare_output_dir env (args_output_dir args) with
  | None =>
      (Raise (FfmpegNmlzError
                ("Unable to create output directory: " +:+ args_output_dir args)), tr)
  | Some output_dir =>
      let scanned := scan_inputs wav_preset (args_inputs args) in
      match expand_patterns env (snd scanned) [] tr with
      | (Return input_files, tr') =>
          (Return (output_dir,
                   override_extension (args_extension args) (fst scanned),
                   remove_duplicates input_files), tr')
      | (Raise e, tr') => (Raise e, tr')
      end
  end.
Proof.
  unfold verify_and_prepare_args.
  destruct (prepare_output_dir env (args_output_dir args)); [|reflexivity].
  unfold mbind, Py_bind, getitem. rewrite PRESET_INFO_wav. cbn [mret Py_ret].
  destruct (scan_inputs wav_preset (args_inputs args)) as [cfg pats].
  cbn [fst snd]. destruct (expand_patterns env pats [] tr) as [[files|e] tr'];
    reflexivity.
Qed.

(** C10. When no input token is taken as a preset, the format that the
    preset scan leaves is the ['wav'] entry of the table, encoder
    [pcm_s16le], extension [wav], no bitrate, and every token is kept as a
    file pattern; what [verify_and_prepare_args] returns is that format with
    only the extension replaced when the [-e] flag is given. *)
Theorem default_format_is_wav env args :
  (forall token, token ∈ args_inputs args -> is_preset token = false) ->
  PRESET_INFO !! "wav"
  = Some {| encoder := "pcm_s16le"; extension := "wav"; bitrate := None |}
  /\ scan_inputs wav_preset (args_inputs args) = (wav_preset, args_inputs args)
  /\ forall tr output_dir cfg files tr',
       verify_and_prepare_args env args tr = (Return (output_dir, cfg, files), tr') ->
       encoder cfg = "pcm_s16le" /\ bitrate cfg = None
       /\ extension cfg = default "wav" (args_extension args).
Proof.
  intros Hno. split; [reflexivity|].
  assert (Hscan : scan_inputs wav_preset (args_inputs args)
                  = (wav_preset, args_inputs args))
    by (unfold scan_inputs; now rewrite scan_no_preset).
  split; [exact Hscan|].
  intros tr output_dir cfg files tr'. rewrite verify_and_prepare_args_eq.
  destruct (prepare_output_dir env (args_output_dir args)); [|discriminate].
  cbn zeta. rewrite Hscan. cbn [fst snd].
  destruct (expand_patterns env (args_inputs args) [] tr) as [[fs|e] tr''];
    [|discriminate].
  intros [= _ <- _ _]. now destruct (args_extension args).
Qed.

Lemma default_format_is_wav_witness :
  scan_inputs wav_preset ["*.mp3"; "a.wav"] = (wav_preset, ["*.mp3"; "a.wav"]).
Proof.
  apply (default_format_is_wav Demo.env (Demo.args ["*.mp3"; "a.wav"])).
  intros token Ht. simpl in Ht. set_unfold in Ht.
  destruct Ht as [->|[->|[]]]; reflexivity.
Defined.

(** ** The monad *)

Lemma bind_eq {A B} (m : Py A) (f : A -> Py B) tr :
  (m ≫= f) tr =
  match m tr with
  | (Return a, tr') => f a tr'
  | (Raise e, tr') => (Raise e, tr')
  end.
Proof. reflexivity. Qed.

Lemma bind_Return {A B} (m : Py A) (f : A -> Py B) tr b tr2 :
  (m ≫= f) tr = (Return b, tr2) ->
  exists a tr1, m tr = (Return a, tr1) /\ f a tr1 = (Return b, tr2).
Proof.
  rewrite bind_eq. destruct (m tr) as [[a|e] tr1]; [eauto|discriminate].
Qed.

Lemma popen_calls_app tr1 tr2 :
  popen_calls (tr1 ++ tr2) = popen_calls tr1 ++ popen_calls tr2.
Proof.
  induction tr1 as [|[t|t|params|e] tr1 IH]; simpl;
    [reflexivity|exact IH|exact IH| |exact IH].
  now rewrite IH.
Qed.

(** ** C8: a pattern that matches nothing *)

(** Resolving the file patterns neither prints nor launches anything. *)
Lemma verify_and_canonicanize_path_trace env p tr r tr' :
  verify_and_canonicanize_path env p tr = (r, tr') -> tr' = tr.
Proof.
  unfold verify_and_canonicanize_path.
  destruct (path_resolve env p) as [q|]; [destruct (can_read env q)|];
    now intros [= _ <-].
Qed.

Lemma expand_patterns_app env : forall l1 l2 acc tr,
  expand_patterns env (l1 ++ l2) acc tr =
  match expand_patterns env l1 acc tr with
  | (Return files, tr') => expand_patterns env l2 files tr'
  | (Raise e, tr') => (Raise e, tr')
  end.
Proof.
  induction l1 as [|pattern l1 IH]; intros l2 acc tr; [reflexivity|].
  cbn [app expand_patterns].
  destruct (has_wildcard pattern).
  - rewrite !bind_eq. unfold lift.
    destruct (glob env pattern) as [found|e]; [|reflexivity].
    rewrite !bind_eq.
    destruct (verify_all env found tr) as [[verified|e] tr1]; [|reflexivity].
    destruct found; [reflexivity|apply IH].
  - rewrite !bind_eq.
    destruct (verify_and_canonicanize_path env _ tr) as [[f|e] tr1];
      [apply IH|reflexivity].
Qed.

Lemma expand_patterns_empty_glob env pattern rest acc tr :
  has_wildcard pattern = true -> glob env pattern = Return [] ->
  expand_patterns env (pattern :: rest) acc tr
  = (Raise (FfmpegNmlzError ("No files found for pattern: " +:+ pattern)), tr).
Proof.
  intros Hw Hg. cbn [expand_patterns]. rewrite Hw, bind_eq. unfold lift.
  now rewrite Hg.
Qed.

(** C8, as the code has it.  The patterns are resolved in order and the
    first failure ends the preparation.  So: for an input token with [*] or
    [?] in it whose expansion is empty, when the output directory could be
    prepared and every file or pattern token before it resolved, argument
    preparation raises the application error "No files found for pattern: "
    followed by that very token, and returns no files. *)
Theorem empty_glob_is_reported env args pre token post output_dir files tr tr' :
  args_inputs args = pre ++ token :: post ->
  has_wildcard token = true ->
  glob env token = Return [] ->
  prepare_output_dir env (args_output_dir args) = Some output_dir ->
  expand_patterns env (snd (scan_inputs wav_preset pre)) [] tr = (Return files, tr') ->
  verify_and_prepare_args env args tr
  = (Raise (FfmpegNmlzError ("No files found for pattern: " +:+ token)), tr').
Proof.
  intros Hin Hw Hg Hdir Hpre.
  rewrite verify_and_prepare_args_eq, Hdir. cbn zeta.
  unfold scan_inputs in *. rewrite scan_patterns in *. rewrite Hin.
  rewrite filter_app, filter_cons_True by (now apply wildcard_not_preset).
  rewrite app_nil_l in *. rewrite expand_patterns_app, Hpre.
  now rewrite expand_patterns_empty_glob.
Qed.

Lemma empty_glob_is_reported_witness :
  verify_and_prepare_args Demo.env (Demo.args ["aac"; "song.mp3"; "*.flac"; "a.wav"]) []
  = (Raise (FfmpegNmlzError "No files found for pattern: *.flac"), []).
Proof.
  apply (empty_glob_is_reported Demo.env
           (Demo.args ["aac"; "song.mp3"; "*.flac"; "a.wav"])
           ["aac"; "song.mp3"] "*.flac" ["a.wav"]
           (Path_of_string "/out") [Path_of_string "/music/song.mp3"] [] []);
    reflexivity.
Defined.

(** C8 as stated fails when something fails earlier: of two patterns that
    both match nothing, only the first is named. *)
Lemma empty_glob_counterexample :
  has_wildcard "*.xyz" = true
  /\ glob Demo.env "*.xyz" = Return []
  /\ verify_and_prepare_args Demo.env (Demo.args ["*.abc"; "*.xyz"]) []
     = (Raise (FfmpegNmlzError "No files found for pattern: *.abc"), [])
  /\ str_contains "*.xyz" "No files found for pattern: *.abc" = false.
Proof. repeat split; reflexivity. Qed.

(** ** C7: reporting a failure and stopping *)

Lemma call_ffmpeg_trace env params tr r tr' :
  call_ffmpeg env params tr = (r, tr') -> tr' = tr ++ [Popen params].
Proof. rewrite call_ffmpeg_eq. now intros [= _ <-]. Qed.

Lemma parse_max_volume_trace stdout tr r tr' :
  parse_max_volume stdout tr = (r, tr') -> tr' = tr.
Proof.
  unfold parse_max_volume.
  destruct (VOLUME_REGEX_search stdout) as [g|];
    [destruct (Float.of_string g)|]; now intros [= _ <-].
Qed.

(** A file that goes through was measured once and encoded once, in that
    order, with the gain computed from the measure. *)
Lemma normalize_file_Return env d c i p tr tr' :
  normalize_file env d c i p tr = (Return tt, tr') ->
  exists v, popen_calls tr' = popen_calls tr ++ calls_for d c p v.
Proof.
  unfold normalize_file, ffmpeg_get_max_volume,
    ffmpeg_convert_with_volume_filter, print, emit.
  intros H.
  apply bind_Return in H as (u1 & tr1 & [= <-] & H1).
  apply bind_Return in H1 as (v & tr2 & Hv & H2).
  apply bind_Return in Hv as (out & tr3 & Hcall & Hparse).
  apply call_ffmpeg_trace in Hcall as ->.
  apply parse_max_volume_trace in Hparse as ->.
  apply bind_Return in H2 as (u2 & tr4 & [= <-] & H3).
  apply bind_Return in H3 as (u3 & tr5 & [= <-] & H4).
  apply bind_Return in H4 as (u4 & tr6 & Hcall & [= <-]).
  apply call_ffmpeg_trace in Hcall as ->.
  subst. exists v. rewrite !popen_calls_app. simpl. rewrite !app_nil_r.
  now rewrite <- app_assoc.
Qed.

Lemma normalize_files_Return env d c : forall files i tr tr',
  normalize_files env d c i files tr = (Return tt, tr') ->
  exists vols, length vols = length files
    /\ popen_calls tr' = popen_calls tr ++ concat (zip_with (calls_for d c) files vols).
Proof.
  induction files as [|p files IH]; intros i tr tr' H.
  - injection H as <-. exists []. simpl. now rewrite app_nil_r.
  - cbn [normalize_files] in H.
    apply bind_Return in H as ([] & tr1 & Hp & Hrest).
    apply normalize_file_Return in Hp as (v & Hv).
    apply IH in Hrest as (vols & Hlen & Hcalls).
    exists (v :: vols). split; [simpl; now rewrite Hlen|].
    cbn [zip_with concat]. now rewrite Hcalls, Hv, <- !app_assoc.
Qed.

(** Once a file has failed, the files after it play no part: the outcome
    and the whole trace are those of the run without them. *)
Lemma normalize_files_stop env d c : forall pre i f post tr e tr',
  normalize_files env d c i (pre ++ [f]) tr = (Raise e, tr') ->
  normalize_files env d c i (pre ++ f :: post) tr = (Raise e, tr').
Proof.
  induction pre as [|p pre IH]; intros i f post tr e tr';
    cbn [app normalize_files]; rewrite !bind_eq.
  - destruct (normalize_file env d c i f tr) as [[[]|e1] tr1]; [discriminate|auto].
  - destruct (normalize_file env d c i p tr) as [[[]|e1] tr1]; [apply IH|auto].
Qed.

Lemma verify_all_trace env : forall files tr r tr',
  verify_all env files tr = (r, tr') -> tr' = tr.
Proof.
  induction files as [|f files IH]; intros tr r tr'; cbn [verify_all].
  - now intros [= _ <-].
  - rewrite bind_eq.
    destruct (verify_and_canonicanize_path env f tr) as [[f'|e] tr1] eqn:Hf;
      apply verify_and_canonicanize_path_trace in Hf as ->; [|now intros [= _ <-]].
    rewrite bind_eq.
    destruct (verify_all env files tr) as [[fs|e] tr1] eqn:Hfs;
      apply IH in Hfs as ->; now intros [= _ <-].
Qed.

Lemma expand_patterns_trace env : forall patterns acc tr r tr',
  expand_patterns env patterns acc tr = (r, tr') -> tr' = tr.
Proof.
  induction patterns as [|pattern rest IH]; intros acc tr r tr';
    cbn [expand_patterns].
  - now intros [= _ <-].
  - destruct (has_wildcard pattern).
    + rewrite bind_eq. unfold lift.
      destruct (glob env pattern) as [found|e]; [|now intros [= _ <-]].
      rewrite bind_eq.
      destruct (verify_all env found tr) as [[verified|e] tr1] eqn:Hv;
        apply verify_all_trace in Hv as ->; [|now intros [= _ <-]].
      destruct found; [now intros [= _ <-]|apply IH].
    + rewrite bind_eq.
      destruct (verify_and_canonicanize_path env _ tr) as [[f|e] tr1] eqn:Hf;
        apply verify_and_canonicanize_path_trace in Hf as ->;
        [apply IH|now intros [= _ <-]].
Qed.

Lemma verify_and_prepare_args_trace env args tr r tr' :
  verify_and_prepare_args env args tr = (r, tr') -> tr' = tr.
Proof.
  rewrite verify_and_prepare_args_eq.
  destruct (prepare_output_dir env (args_output_dir args));
    [|now intros [= _ <-]].
  cbn zeta.
  destruct (expand_patterns env _ [] tr) as [[files|e] tr1] eqn:He;
    apply expand_patterns_trace in He as ->; now intros [= _ <-].
Qed.

(** C7, as the code has it.  When [do_normalizing] ends with the
    application error, [main] prints an empty line and [ERROR: <message>] on
    standard error after what was done so far, does nothing more, and
    returns: the process ends with status 0.  A failure while a file is
    processed ends the loop there, the files after it are not touched.
    When nothing fails every prepared file is measured and encoded, in
    order, and the process ends with status 0. *)
Theorem failure_is_reported_and_run_stops env args :
  (forall message tr',
      do_normalizing env args [] = (Raise (FfmpegNmlzError message), tr') ->
      run env args = (0, tr' ++ [Stderr (String LF "ERROR: " +:+ message)]))
  /\ (forall d c i pre f post tr e tr',
      normalize_files env d c i (pre ++ [f]) tr = (Raise e, tr') ->
      normalize_files env d c i (pre ++ f :: post) tr = (Raise e, tr'))
  /\ (forall tr',
      do_normalizing env args [] = (Return tt, tr') ->
      run env args = (0, tr')
      /\ exists d c files vols,
           verify_and_prepare_args env args [] = (Return (d, c, files), [])
           /\ length vols = length files
           /\ popen_calls tr' = concat (zip_with (calls_for d c) files vols)).
Proof.
  split; [|split].
  - intros message tr' H. unfold run, main. now rewrite H.
  - intros d c i pre f post tr e tr'. apply normalize_files_stop.
  - intros tr' H. split; [unfold run, main; now rewrite H|].
    unfold do_normalizing in H.
    apply bind_Return in H as ([[d c] files] & tr1 & Hv & Hloop).
    pose proof (verify_and_prepare_args_trace _ _ _ _ _ Hv) as ->.
    apply normalize_files_Return in Hloop as (vols & Hlen & Hcalls).
    now exists d, c, files, vols.
Qed.

Lemma failure_is_reported_and_run_stops_witness :
  run Demo.env_no_ffmpeg (Demo.args ["*"])
  = (0, [Stdout "> File 1: song.mp3";
         Popen (detect_params "/music/song.mp3");
         Stderr (String LF "ERROR: FFmpeg is not installed. Please install FFmpeg first.")]).
Proof.
  apply (proj1 (failure_is_reported_and_run_stops Demo.env_no_ffmpeg
                  (Demo.args ["*"]))
           "FFmpeg is not installed. Please install FFmpeg first."
           [Stdout "> File 1: song.mp3"; Popen (detect_params "/music/song.mp3")]).
  reflexivity.
Defined.

(** C7 as stated fails on the exit: with the binary missing, the error is
    printed and the second file is left alone, but the process ends with
    status 0, as it does after a run without failure. *)
Lemma typed_failure_exit_counterexample :
  do_normalizing Demo.env_no_ffmpeg (Demo.args ["*"]) []
  = (Raise (FfmpegNmlzError "FFmpeg is not installed. Please install FFmpeg first."),
     [Stdout "> File 1: song.mp3"; Popen (detect_params "/music/song.mp3")])
  /\ fst (run Demo.env_no_ffmpeg (Demo.args ["*"])) = 0
  /\ fst (run Demo.env (Demo.args ["*"])) = 0.
Proof. repeat split; reflexivity. Qed.

(** ** C5: removing duplicate files *)

Section Dedup.

Context {K : Type} `{EqDecision K}.
Implicit Types (l : list K) (x y : K).

(** Storing under [k] appends the key when it is new and leaves the keys
    alone when it is not. *)
Lemma dict_set_keys {V} (d : list (K * V)) k v :
  map fst (dict_set d k v)
  = if decide (k ∈ map fst d) then map fst d else map fst d ++ [k].
Proof.
  induction d as [|[k' v'] d IH]; cbn [dict_set map fst].
  - rewrite decide_False by set_solver. reflexivity.
  - destruct (decide (k' = k)) as [->|Hne]; cbn [map fst].
    + rewrite decide_True by set_solver. reflexivity.
    + rewrite IH. destruct (decide (k ∈ map fst d)) as [Hin|Hnin].
      * rewrite decide_True by set_solver. reflexivity.
      * rewrite decide_False by set_solver. reflexivity.
Qed.

Lemma remove_duplicates_snoc l x :
  remove_duplicates (l ++ [x])
  = if decide (x ∈ remove_duplicates l) then remove_duplicates l
    else remove_duplicates l ++ [x].
Proof.
  unfold remove_duplicates, dict_of_keys. rewrite fold_left_app. simpl.
  apply dict_set_keys.
Qed.

Lemma elem_of_remove_duplicates l x : x ∈ remove_duplicates l <-> x ∈ l.
Proof.
  induction l as [|a l IH] using rev_ind; [reflexivity|].
  rewrite remove_duplicates_snoc.
  destruct (decide (a ∈ remove_duplicates l)) as [Hin|Hnin]; set_solver.
Qed.

Lemma NoDup_remove_duplicates l : NoDup (remove_duplicates l).
Proof.
  induction l as [|a l IH] using rev_ind; [constructor|].
  rewrite remove_duplicates_snoc.
  destruct (decide (a ∈ remove_duplicates l)) as [Hin|Hnin]; [exact IH|].
  apply NoDup_app. repeat split; [exact IH|set_solver|apply NoDup_singleton].
Qed.

Lemma index_of_lt l x : x ∈ l -> (index_of x l < length l)%nat.
Proof.
  induction l as [|a l IH]; intros Hx; [set_solver|]. simpl.
  destruct (decide (a = x)); [lia|].
  assert (Hl : x ∈ l) by set_solver. specialize (IH Hl). lia.
Qed.

Lemma index_of_app_l l l' x : x ∈ l -> index_of x (l ++ l') = index_of x l.
Proof.
  induction l as [|a l IH]; intros Hx; [set_solver|]. simpl.
  destruct (decide (a = x)); [reflexivity|].
  rewrite IH by set_solver. reflexivity.
Qed.

Lemma index_of_app_r l l' x :
  x ∉ l -> index_of x (l ++ l') = (length l + index_of x l')%nat.
Proof.
  induction l as [|a l IH]; intros Hx; [reflexivity|]. simpl.
  destruct (decide (a = x)); [set_solver|].
  rewrite IH by set_solver. reflexivity.
Qed.

Lemma index_of_last l x : x ∉ l -> index_of x (l ++ [x]) = length l.
Proof.
  intros Hx. rewrite index_of_app_r by exact Hx. simpl.
  rewrite decide_True by reflexivity. lia.
Qed.

(** The survivors stand in the order of their first occurrences. *)
Lemma remove_duplicates_order l : forall x y,
  x ∈ l -> y ∈ l ->
  (index_of x (remove_duplicates l) < index_of y (remove_duplicates l))%nat
  <-> (index_of x l < index_of y l)%nat.
Proof.
  induction l as [|a l IH] using rev_ind; intros x y Hx Hy;
    [now apply elem_of_nil in Hx|].
  rewrite remove_duplicates_snoc.
  apply elem_of_app in Hx as [Hx|Hx%list_elem_of_singleton];
    apply elem_of_app in Hy as [Hy|Hy%list_elem_of_singleton]; subst.
  - (* both occur before the last element *)
    pose proof (proj2 (elem_of_remove_duplicates l x) Hx) as Hx'.
    pose proof (proj2 (elem_of_remove_duplicates l y) Hy) as Hy'.
    rewrite (index_of_app_l l _ x Hx), (index_of_app_l l _ y Hy).
    destruct (decide (a ∈ remove_duplicates l)); [now apply IH|].
    rewrite (index_of_app_l _ _ x Hx'), (index_of_app_l _ _ y Hy').
    now apply IH.
  - (* [y] is the last element *)
    pose proof (proj2 (elem_of_remove_duplicates l x) Hx) as Hx'.
    rewrite (index_of_app_l l _ x Hx).
    destruct (decide (a ∈ remove_duplicates l)) as [Hin|Hnin].
    + pose proof (proj1 (elem_of_remove_duplicates l a) Hin) as Ha.
      rewrite (index_of_app_l l _ a Ha). now apply IH.
    + assert (Ha : a ∉ l) by (now rewrite <- elem_of_remove_duplicates).
      rewrite (index_of_app_l _ _ x Hx'), !index_of_last by assumption.
      pose proof (index_of_lt _ _ Hx). pose proof (index_of_lt _ _ Hx'). lia.
  - (* [x] is the last element *)
    pose proof (proj2 (elem_of_remove_duplicates l y) Hy) as Hy'.
    rewrite (index_of_app_l l _ y Hy).
    destruct (decide (a ∈ remove_duplicates l)) as [Hin|Hnin].
    + pose proof (proj1 (elem_of_remove_duplicates l a) Hin) as Ha.
      rewrite (index_of_app_l l _ a Ha). now apply IH.
    + assert (Ha : a ∉ l) by (now rewrite <- elem_of_remove_duplicates).
      rewrite (index_of_app_l _ _ y Hy'), !index_of_last by assumption.
      pose proof (index_of_lt _ _ Hy). pose proof (index_of_lt _ _ Hy'). lia.
  - lia.
Qed.

(** Only later occurrences are dropped: the result is a subsequence. *)
Lemma remove_duplicates_sublist l : remove_duplicates l `sublist_of` l.
Proof.
  induction l as [|a l IH] using rev_ind; [constructor|].
  rewrite remove_duplicates_snoc.
  destruct (decide (a ∈ remove_duplicates l)).
  - now apply sublist_inserts_r.
  - now apply sublist_app.
Qed.

End Dedup.

(** C5. For every list of resolved input paths, the list without duplicates
    contains each path of the input exactly once and nothing else, is a
    subsequence of the input, and lists the paths in the order of their
    first occurrences; the files that [verify_and_prepare_args] hands to the
    loop are such a list, so each file is processed once. *)
Theorem remove_duplicates_keeps_first_occurrences (l : list Path) :
  NoDup (remove_duplicates l)
  /\ (forall p, p ∈ remove_duplicates l <-> p ∈ l)
  /\ remove_duplicates l `sublist_of` l
  /\ (forall p q, p ∈ l -> q ∈ l ->
      (index_of p (remove_duplicates l) < index_of q (remove_duplicates l))%nat
      <-> (index_of p l < index_of q l)%nat)
  /\ (forall env args tr output_dir cfg files tr',
      verify_and_prepare_args env args tr = (Return (output_dir, cfg, files), tr') ->
      NoDup files).
Proof.
  repeat split.
  - apply NoDup_remove_duplicates.
  - apply elem_of_remove_duplicates.
  - apply elem_of_remove_duplicates.
  - apply remove_duplicates_sublist.
  - now apply remove_duplicates_order.
  - now apply remove_duplicates_order.
  - intros env args tr output_dir cfg files tr'.
    rewrite verify_and_prepare_args_eq.
    destruct (prepare_output_dir env (args_output_dir args)); [|discriminate].
    cbn zeta. destruct (expand_patterns env _ [] tr) as [[fs|e] tr1];
      [|discriminate].
    intros [= _ _ <- _]. apply NoDup_remove_duplicates.
Qed.

Lemma remove_duplicates_keeps_first_occurrences_witness :
  remove_duplicates
    [Path_of_string "/music/song.mp3"; Path_of_string "/music/a.wav";
     Path_of_string "/music/song.mp3"]
  = [Path_of_string "/music/song.mp3"; Path_of_string "/music/a.wav"]
  /\ NoDup (remove_duplicates
              [Path_of_string "/music/song.mp3"; Path_of_string "/music/a.wav";
               Path_of_string "/music/song.mp3"]).
Proof.
  split; [reflexivity|].
  apply (proj1 (remove_duplicates_keeps_first_occurrences _)).
Defined.

(** ** Paths *)

Lemma str_take_drop : forall n s, str_take n s +:+ str_drop n s = s.
Proof.
  induction n as [|n IH]; intros [|c s]; try reflexivity.
  simpl. rewrite str_app_cons. now rewrite IH.
Qed.

Lemma str_mem_take c : forall n s,
  str_mem c s = false -> str_mem c (str_take n s) = false.
Proof.
  induction n as [|n IH]; intros [|a s] H; try reflexivity.
  simpl in *. apply orb_false_iff in H as [Ha Hs].
  now rewrite Ha, (IH s Hs).
Qed.

Lemma rfind_drop c : forall s i,
  rfind c s = Some i -> exists r, str_drop i s = String c r.
Proof.
  induction s as [|a s IH]; intros i H; [discriminate|]. simpl in H.
  destruct (rfind c s) as [j|].
  - injection H as <-. simpl. now apply IH.
  - destruct (Ascii.eqb_spec a c) as [->|]; [|discriminate].
    injection H as <-. now exists s.
Qed.

Lemma split_on_no_sep sep : forall s,
  str_mem sep s = false -> split_on sep s = [s].
Proof.
  induction s as [|c s IH]; intros H; [reflexivity|].
  simpl in *. apply orb_false_iff in H as [Hc Hs].
  now rewrite Hc, (IH Hs).
Qed.

(** A file name parses to the relative path with that one part. *)
Lemma Path_of_string_name x :
  str_mem "/" x = false -> x <> "" -> x <> "." ->
  Path_of_string x = {| root := ""; parts := [x] |}.
Proof.
  intros Hs Hne Hdot. unfold Path_of_string.
  assert (Hroot : splitroot x = ("", x)).
  { destruct x as [|c x]; [reflexivity|]. simpl in Hs.
    apply orb_false_iff in Hs as [Hc _]. apply Ascii.eqb_neq in Hc.
    unfold splitroot.
    destruct c as [[] [] [] [] [] [] [] []]; try reflexivity. now destruct Hc. }
  rewrite Hroot, (split_on_no_sep "/" x Hs). f_equal.
  rewrite filter_cons_True; [reflexivity|].
  apply is_empty_false in Hne. apply String.eqb_neq in Hdot.
  now rewrite Hne, Hdot.
Qed.

Lemma Path_join_name d x :
  str_mem "/" x = false -> x <> "" -> x <> "." ->
  Path_join d x = {| root := root d; parts := parts d ++ [x] |}.
Proof.
  intros Hs Hne Hdot. unfold Path_join.
  now rewrite (Path_of_string_name x Hs Hne Hdot).
Qed.

Lemma Path_name_snoc rt ps x : Path_name {| root := rt; parts := ps ++ [x] |} = x.
Proof. unfold Path_name. simpl. apply last_last. Qed.

Lemma Path_parent_snoc rt ps x :
  Path_parent {| root := rt; parts := ps ++ [x] |} = {| root := rt; parts := ps |}.
Proof. unfold Path_parent. simpl. now rewrite removelast_last. Qed.

Lemma Path_name_no_sep p : wf_path p -> str_mem "/" (Path_name p) = false.
Proof.
  unfold wf_path, Path_name.
  induction (parts p) as [|x l IH]; intros H; [reflexivity|].
  inversion H as [|x' l' Hx Hl]; subst.
  destruct l as [|y l]; [exact Hx|]. now apply IH.
Qed.

Lemma Path_stem_no_sep p : wf_path p -> str_mem "/" (Path_stem p) = false.
Proof.
  intros H. apply Path_name_no_sep in H. unfold Path_stem.
  destruct (suffix_index (Path_name p)); [now apply str_mem_take|exact H].
Qed.

(** A name is its stem followed by its suffix, and a suffix is empty or
    starts with a dot. *)
Lemma Path_stem_suffix p : Path_stem p +:+ Path_suffix p = Path_name p.
Proof.
  unfold Path_stem, Path_suffix.
  destruct (suffix_index (Path_name p)); [apply str_take_drop|apply str_app_nil_r].
Qed.

Lemma Path_suffix_dot p :
  Path_suffix p = "" \/ exists r, Path_suffix p = String "." r.
Proof.
  unfold Path_suffix, suffix_index.
  destruct (rfind "." (Path_name p)) as [i|] eqn:Hi; [|now left].
  destruct ((0 <? i)%nat && (i <? String.length (Path_name p) - 1)%nat);
    [|now left].
  right. now apply rfind_drop.
Qed.

Lemma name_with_infix_ok stem tail :
  str_mem "/" stem = false -> str_mem "/" tail = false ->
  forall infix, infix = "-1." \/ infix = "-1.wav" \/ infix = ".wav" ->
  let x := stem +:+ infix +:+ tail in
  str_mem "/" x = false /\ x <> "" /\ x <> ".".
Proof.
  intros Hs Ht infix Hi x. subst x. repeat split.
  - rewrite !str_mem_app, Hs, Ht.
    destruct Hi as [-> | [-> | ->]]; reflexivity.
  - intros H. apply (f_equal String.length) in H.
    rewrite !str_app_length in H.
    destruct Hi as [-> | [-> | ->]]; simpl in H; lia.
  - intros H. apply (f_equal String.length) in H.
    rewrite !str_app_length in H.
    destruct Hi as [-> | [-> | ->]]; simpl in H; lia.
Qed.

(** The shape of the output path, for an extension without a separator. *)
Lemma get_out_path_parts d c p :
  wf_path p -> str_mem "/" (extension c) = false ->
  get_out_path d c p
  = {| root := root d;
       parts := parts d ++ [Path_stem p +:+ "-1." +:+ extension c] |}.
Proof.
  intros Hp Hc. unfold get_out_path.
  destruct (name_with_infix_ok (Path_stem p) (extension c)
              (Path_stem_no_sep p Hp) Hc "-1." (or_introl eq_refl))
    as (H1 & H2 & H3).
  now apply Path_join_name.
Qed.

Lemma get_out_path_ne d c p :
  wf_path p -> str_mem "/" (extension c) = false -> get_out_path d c p <> p.
Proof.
  intros Hp Hc Heq. apply (f_equal Path_name) in Heq.
  rewrite (get_out_path_parts d c p Hp Hc), Path_name_snoc in Heq.
  rewrite <- Path_stem_suffix in Heq. apply (inj _) in Heq.
  destruct (Path_suffix_dot p) as [Hs|[r Hs]]; rewrite Hs in Heq; discriminate.
Qed.

(** ** C4: the output path *)

(** C4. The output path is the output directory joined with the stem of the
    input, ["-1"], a dot and the extension.  For an input whose parts are
    file names and an extension without a separator that is one more part
    under the output directory: the parent of the output is the output
    directory and its name is the stem, ["-1."] and the extension.  The
    input [song.mp3] with extension [wav] and output directory [/out] gives
    [/out/song-1.wav]. *)
Theorem output_path_is_stem_dash_one :
  (forall d c p,
      get_out_path d c p
      = Path_join d (Path_stem p +:+ "-1" +:+ "." +:+ extension c))
  /\ (forall d c p,
      wf_path p -> str_mem "/" (extension c) = false ->
      Path_parent (get_out_path d c p) = d
      /\ Path_name (get_out_path d c p) = Path_stem p +:+ "-1." +:+ extension c)
  /\ Path_str (get_out_path (Path_of_string "/out") wav_preset
                 (Path_of_string "song.mp3")) = "/out/song-1.wav"
  /\ Path_str (get_out_path (Path_of_string "/out") wav_preset
                 (Path_of_string "/music/song.mp3")) = "/out/song-1.wav".
Proof.
  repeat split; try reflexivity.
  - rewrite get_out_path_parts by assumption.
    rewrite Path_parent_snoc. now destruct d.
  - rewrite get_out_path_parts by assumption. apply Path_name_snoc.
Qed.

Lemma output_path_is_stem_dash_one_witness :
  Path_parent (get_out_path (Path_of_string "/out") wav_preset
                 (Path_of_string "/music/song.mp3")) = Path_of_string "/out"
  /\ Path_name (get_out_path (Path_of_string "/out") wav_preset
                  (Path_of_string "/music/song.mp3")) = "song-1.wav".
Proof.
  apply (proj1 (proj2 output_path_is_stem_dash_one) (Path_of_string "/out")
           wav_preset (Path_of_string "/music/song.mp3")).
  - repeat constructor.
  - reflexivity.
Defined.

(** ** C6: output against input *)

Lemma wav_candidate_parts p b :
  wf_path p ->
  wav_candidate p b
  = {| root := root p;
       parts := removelast (parts p)
                ++ [Path_stem p +:+ (if b then "-1.wav" else ".wav")] |}.
Proof.
  intros Hp. unfold wav_candidate.
  destruct (name_with_infix_ok (Path_stem p) "" (Path_stem_no_sep p Hp) eq_refl
              (if b then "-1.wav" else ".wav")
              ltac:(destruct b; auto)) as (H1 & H2 & H3).
  rewrite str_app_nil_r in H1, H2, H3.
  now rewrite (Path_join_name _ _ H1 H2 H3).
Qed.

(** [main.py]: without an explicit output, ["-1"] goes after the stem exactly
    when the input is itself a [.wav], which is exactly when the plain
    [stem.wav] beside the input would be the input. *)
Lemma get_path_default env s in_path out :
  main_py.get_path env s None = Return (in_path, out) ->
  wf_path in_path ->
  exists dash_one,
    out = path_resolve_lax env (wav_candidate in_path dash_one)
    /\ wav_candidate in_path dash_one <> in_path
    /\ (dash_one = true <-> wav_candidate in_path false = in_path).
Proof.
  unfold main_py.get_path.
  destruct (path_resolve env (Path_of_string s)) as [p|]; [|discriminate].
  intros [= <- <-] Hp.
  exists (String.eqb (Path_suffix p) ".wav").
  fold (wav_candidate p true). fold (wav_candidate p false).
  split; [now destruct (String.eqb (Path_suffix p) ".wav")|].
  assert (Hname : forall b, Path_name (wav_candidate p b) = Path_name p ->
                            b = false /\ Path_suffix p = ".wav").
  { intros b Hb. rewrite (wav_candidate_parts p b Hp), Path_name_snoc in Hb.
    rewrite <- Path_stem_suffix in Hb. apply (inj _) in Hb.
    destruct b; [|now split].
    destruct (Path_suffix_dot p) as [Hs|[r Hs]]; rewrite Hs in Hb; discriminate. }
  split; [|split].
  - intros Heq. apply (f_equal Path_name), Hname in Heq as [Hb Hs].
    rewrite Hs in Hb. discriminate.
  - intros Hb. apply String.eqb_eq in Hb.
    rewrite (wav_candidate_parts p false Hp).
    assert (Hn : Path_name p = Path_stem p +:+ ".wav")
      by (now rewrite <- Path_stem_suffix, Hb).
    destruct p as [rt ps]. unfold Path_name in Hn. simpl in *. f_equal.
    destruct ps as [|x ps].
    + simpl in Hn. apply (f_equal String.length) in Hn.
      rewrite str_app_length in Hn. simpl in Hn. lia.
    + rewrite <- Hn. symmetry. apply app_removelast_last. discriminate.
  - intros Heq. apply (f_equal Path_name), Hname in Heq as [_ Hs].
    now apply String.eqb_eq.
Qed.

(** C6, as the code has it.  In the preset-aware tool the output name is
    always the stem of the input, ["-1."] and the extension, whether or not
    the plain name would collide; for an input whose parts are file names
    and an extension without a separator the output path differs from the
    input path.  In [main.py], without an explicit output, ["-1"] is put
    after the stem exactly when [stem.wav] beside the input would be the
    input itself, and the path derived (before symlinks are resolved)
    differs from the input path. *)
Theorem output_differs_from_input :
  (forall d c p,
      wf_path p -> str_mem "/" (extension c) = false ->
      get_out_path d c p <> p
      /\ Path_name (get_out_path d c p) = Path_stem p +:+ "-1." +:+ extension c)
  /\ (forall env s in_path out,
      main_py.get_path env s None = Return (in_path, out) ->
      wf_path in_path ->
      exists dash_one,
        out = path_resolve_lax env (wav_candidate in_path dash_one)
        /\ wav_candidate in_path dash_one <> in_path
        /\ (dash_one = true <-> wav_candidate in_path false = in_path)).
Proof.
  split.
  - intros d c p Hp Hc. split; [now apply get_out_path_ne|].
    rewrite get_out_path_parts by assumption. apply Path_name_snoc.
  - apply get_path_default.
Qed.

Lemma output_differs_from_input_witness :
  get_out_path (Path_of_string "/music") wav_preset (Path_of_string "/music/a.wav")
  <> Path_of_string "/music/a.wav"
  /\ Path_name (get_out_path (Path_of_string "/music") wav_preset
                  (Path_of_string "/music/a.wav")) = "a-1.wav".
Proof.
  apply (proj1 output_differs_from_input (Path_of_string "/music") wav_preset
           (Path_of_string "/music/a.wav")).
  - repeat constructor.
  - reflexivity.
Defined.

(** C6 as stated fails twice.  The suffix is there without any collision:
    [/music/song.mp3] written as wav under [/out] becomes
    [/out/song-1.wav] although [/out/song.wav] is not the input.  And with
    the extension [a/b] given on the command line, the input [/o/b-1.a/b]
    and the output directory [/o], the output path is the input path. *)
Lemma output_suffix_counterexample :
  (get_out_path (Path_of_string "/out") wav_preset (Path_of_string "/music/song.mp3")
   = Path_of_string "/out/song-1.wav"
   /\ Path_join (Path_of_string "/out") "song.wav" <> Path_of_string "/music/song.mp3")
  /\ get_out_path (Path_of_string "/o")
       (override_extension (Some "a/b") wav_preset) (Path_of_string "/o/b-1.a/b")
     = Path_of_string "/o/b-1.a/b".
Proof. repeat split; try reflexivity. discriminate. Qed.

(** * Further properties *)

(** ** The measuring pass: where its value comes from, and how it fails *)

Lemma str_contains_eq needle s :
  str_contains needle s =
  match strip_prefix needle s with
  | Some _ => true
  | None => match s with
            | EmptyString => false
            | String _ s' => str_contains needle s'
            end
  end.
Proof. now destruct s. Qed.

Lemma search_None_without_literal : forall s,
  str_contains "max_volume: " s = false -> VOLUME_REGEX_search s = None.
Proof.
  induction s as [|a s IH]; intros H; rewrite str_contains_eq in H;
    rewrite VOLUME_REGEX_search_eq; unfold VOLUME_REGEX_match;
    destruct (strip_prefix "max_volume: " _); try discriminate; auto.
Qed.

Lemma VOLUME_REGEX_search_elim_first : forall s g,
  VOLUME_REGEX_search s = Some g ->
  exists pre post, s = pre +:+ volume_line g +:+ post
                   /\ no_match_before (String.length pre) s
                   /\ str_all is_volume_char g = true /\ g <> "".
Proof.
  induction s as [|a s IH]; intros g H; rewrite VOLUME_REGEX_search_eq in H.
  - discriminate.
  - destruct (VOLUME_REGEX_match (String a s)) eqn:Hm.
    + injection H as ->. apply VOLUME_REGEX_match_elim in Hm as (post & -> & Hg).
      exists "", post. repeat split; try apply Hg. intros i Hi. simpl in Hi. lia.
    + destruct (IH g H) as (pre & post & -> & Hno & Hg).
      exists (String a pre), post. rewrite str_app_cons.
      repeat split; try apply Hg.
      intros [|i] Hi; [exact Hm|]. simpl in *. apply Hno. lia.
Qed.

(** X1. When the first prepared file is measured by a binary that ends with
    status 0 but whose text does not contain [max_volume: ] at all, the run
    ends with an [AttributeError] nobody catches: after the header of the
    first file and the one launch the program does nothing more, it prints
    no [ERROR:] line, and the interpreter ends it with the traceback of the
    exception on standard error and exit status 1. *)
Theorem missing_volume_line_ends_the_run env args d c f rest out :
  verify_and_prepare_args env args [] = (Return (d, c, f :: rest), []) ->
  run_process env [Stdout ("> File " +:+ pretty 1%nat +:+ ": " +:+ Path_name f)]
    (detect_params (Path_str f)) = Exited 0 out ->
  str_contains "max_volume: " out = false ->
  do_normalizing env args []
  = (Raise (PyError "AttributeError"),
     [Stdout ("> File " +:+ pretty 1%nat +:+ ": " +:+ Path_name f);
      Popen (detect_params (Path_str f))])
  /\ run env args
     = (1, [Stdout ("> File " +:+ pretty 1%nat +:+ ": " +:+ Path_name f);
            Popen (detect_params (Path_str f));
            Traceback (PyError "AttributeError")]).
Proof.
  intros Hprep Hrun Hout.
  assert (Hdo : do_normalizing env args []
                = (Raise (PyError "AttributeError"),
                   [Stdout ("> File " +:+ pretty 1%nat +:+ ": " +:+ Path_name f);
                    Popen (detect_params (Path_str f))])).
  { unfold do_normalizing. rewrite bind_eq, Hprep. cbn [normalize_files].
    rewrite bind_eq. unfold normalize_file. rewrite bind_eq.
    unfold print, emit. cbn [app Nat.add]. rewrite bind_eq.
    unfold ffmpeg_get_max_volume. rewrite bind_eq, call_ffmpeg_eq, Hrun.
    cbn [Z.eqb app]. unfold parse_max_volume.
    now rewrite (search_None_without_literal out Hout). }
  split; [exact Hdo|]. unfold run, main. now rewrite Hdo.
Qed.

Lemma missing_volume_line_ends_the_run_witness :
  run (Demo.env_printing "song.mp3: Invalid data found") (Demo.args ["*"])
  = (1, [Stdout "> File 1: song.mp3"; Popen (detect_params "/music/song.mp3");
         Traceback (PyError "AttributeError")]).
Proof.
  apply (missing_volume_line_ends_the_run
           (Demo.env_printing "song.mp3: Invalid data found") (Demo.args ["*"])
           (Path_of_string "/out") wav_preset
           (Path_of_string "/music/song.mp3") [Path_of_string "/music/a.wav"]
           "song.mp3: Invalid data found"); reflexivity.
Defined.

(** X2. Whatever the measuring pass returns was read from the report: the
    binary ended with status 0, its text has a line [max_volume: g dB] that
    is the leftmost match, the value is [float(g)], and it is not a NaN.
    Exactly one launch was made. *)
Theorem measured_volume_comes_from_the_report env in_path tr v tr' :
  ffmpeg_get_max_volume env in_path tr = (Return v, tr') ->
  exists pre g post,
    run_process env tr (detect_params in_path)
    = Exited 0 (pre +:+ volume_line g +:+ post)
    /\ no_match_before (String.length pre) (pre +:+ volume_line g +:+ post)
    /\ Float.of_string g = Some v
    /\ v <> S754_nan
    /\ tr' = tr ++ [Popen (detect_params in_path)].
Proof.
  unfold ffmpeg_get_max_volume. intros H.
  apply bind_Return in H as (out & tr1 & Hcall & Hparse).
  pose proof (call_ffmpeg_trace _ _ _ _ _ Hcall) as ->.
  pose proof (parse_max_volume_trace _ _ _ _ Hparse) as <-.
  rewrite call_ffmpeg_eq in Hcall.
  destruct (run_process env tr (detect_params in_path)) as [| | |rc out'];
    try discriminate.
  destruct (Z.eqb_spec rc 0) as [->|]; [|discriminate].
  injection Hcall as ->.
  unfold parse_max_volume in Hparse.
  destruct (VOLUME_REGEX_search out) as [g|] eqn:Hs; [|discriminate].
  destruct (Float.of_string g) as [v'|] eqn:Hg; [|discriminate].
  injection Hparse as ->.
  apply VOLUME_REGEX_search_elim_first in Hs as (pre & post & -> & Hno & _).
  exists pre, g, post. repeat split; try assumption.
  now apply of_string_not_nan in Hg.
Qed.

Lemma measured_volume_comes_from_the_report_witness :
  exists pre g post,
    Demo.report = pre +:+ volume_line g +:+ post
    /\ Float.of_string g = Some (SFopp f3_2).
Proof.
  destruct (measured_volume_comes_from_the_report Demo.env "/music/song.mp3" []
              (SFopp f3_2) [Popen (detect_params "/music/song.mp3")] eq_refl)
    as (pre & g & post & Hrun & _ & Hg & _).
  exists pre, g, post. split; [|exact Hg].
  simpl in Hrun. unfold Demo.ffmpeg in Hrun. now injection Hrun.
Defined.

(** X3. When the run that the leftmost match captures is not a number for
    [float], as [-], [.] or [1.2.3] are not, the measuring step raises
    [ValueError], which is not the application error. *)
Theorem malformed_volume_is_a_value_error pre g post tr :
  str_all is_volume_char g = true -> g <> "" ->
  Float.of_string g = None ->
  no_match_before (String.length pre) (pre +:+ volume_line g +:+ post) ->
  parse_max_volume (pre +:+ volume_line g +:+ post) tr
  = (Raise (PyError "ValueError"), tr).
Proof.
  intros Hg Hne Hv Hpre. unfold parse_max_volume.
  now rewrite (VOLUME_REGEX_search_first pre g post Hg Hne Hpre), Hv.
Qed.

Lemma malformed_volume_is_a_value_error_witness :
  parse_max_volume (volume_line "1.2.3" +:+ volume_line "-3.2") []
  = (Raise (PyError "ValueError"), []).
Proof.
  apply (malformed_volume_is_a_value_error "" "1.2.3" (volume_line "-3.2") []);
    try reflexivity; try discriminate.
  intros i Hi. simpl in Hi. lia.
Defined.

(** X4. The two entry points treat the exit status of the measuring pass
    differently.  When the binary ends with a non-zero status after a report
    that has the volume line, [main.py] returns the value read from the
    report, while [__main__.py] raises "FFmpeg exited abnormally." without
    looking at the report. *)
Theorem measuring_pass_exit_status env in_path tr rc pre g post v :
  rc <> 0 ->
  run_process env tr (detect_params in_path)
  = Exited rc (pre +:+ volume_line g +:+ post) ->
  str_all is_volume_char g = true -> g <> "" ->
  no_match_before (String.length pre) (pre +:+ volume_line g +:+ post) ->
  Float.of_string g = Some v ->
  main_py.ffmpeg_get_max_volume env in_path tr
  = (Return v, tr ++ [Popen (detect_params in_path)])
  /\ ffmpeg_get_max_volume env in_path tr
     = (Raise (FfmpegNmlzError "FFmpeg exited abnormally."),
        tr ++ [Popen (detect_params in_path)]).
Proof.
  intros Hrc Hrun Hg Hne Hpre Hv. split.
  - unfold main_py.ffmpeg_get_max_volume. rewrite Hrun.
    now apply parse_max_volume_first_match.
  - unfold ffmpeg_get_max_volume. rewrite bind_eq, call_ffmpeg_eq, Hrun.
    now apply Z.eqb_neq in Hrc as ->.
Qed.

Lemma measuring_pass_exit_status_witness :
  main_py.ffmpeg_get_max_volume Demo.env_failing "/music/song.mp3" []
  = (Return (SFopp f3_2), [Popen (detect_params "/music/song.mp3")])
  /\ ffmpeg_get_max_volume Demo.env_failing "/music/song.mp3" []
     = (Raise (FfmpegNmlzError "FFmpeg exited abnormally."),
        [Popen (detect_params "/music/song.mp3")]).
Proof.
  apply (measuring_pass_exit_status Demo.env_failing "/music/song.mp3" [] 1
           "[Parsed_volumedetect_0 @ 0x55] " "-3.2" "" (SFopp f3_2));
    try reflexivity; try discriminate.
  intros i Hi. do 31 (destruct i as [|i]; [reflexivity|]). simpl in Hi. lia.
Defined.

(** ** The gain as it is written into the command *)

Lemma pretty_N_char_no_dash x : Ascii.eqb (pretty_N_char x) "-" = false.
Proof.
  unfold pretty_N_char.
  destruct x as [|[[[[]|[]|]|[[]|[]|]|]|[[[]|[]|]|[[]|[]|]|]|]]; reflexivity.
Qed.

Lemma pretty_N_go_no_dash : forall x s,
  str_mem "-" s = false -> str_mem "-" (pretty_N_go x s) = false.
Proof.
  intros x. induction x as [x IH] using (well_founded_ind N.lt_wf_0).
  intros s Hs. destruct (decide (0 < x)%N) as [Hx|Hx].
  - rewrite pretty_N_go_step by exact Hx. apply IH.
    + now apply N.div_lt.
    + simpl. now rewrite pretty_N_char_no_dash, Hs.
  - assert (x = 0%N) as -> by lia. now rewrite pretty_N_go_0.
Qed.

Lemma pretty_Z_no_dash z : 0 <= z -> str_mem "-" (pretty z) = false.
Proof.
  intros Hz. destruct z as [|p|p]; [reflexivity| |lia].
  unfold pretty, pretty_Z, pretty, pretty_positive, pretty, pretty_N.
  destruct (decide (N.pos p = 0%N)); [reflexivity|].
  now apply pretty_N_go_no_dash.
Qed.

Lemma round_tenths_nonneg m e : 0 <= Float.round_tenths m e.
Proof.
  unfold Float.round_tenths. destruct (0 <=? e) eqn:He.
  - apply Z.leb_le in He. pose proof (Z.pow_nonneg 2 e ltac:(lia)). nia.
  - apply Z.leb_gt in He.
    assert (Hden : 0 < 2 ^ (- e)) by (apply Z.pow_pos_nonneg; lia).
    pose proof (Z.div_pos (Z.pos m * 10) (2 ^ (- e)) ltac:(lia) Hden) as Hq.
    destruct (_ ?= _); [destruct (Z.even _)| |]; lia.
Qed.

(** X5. The gain that either entry point writes between [volume=] and [dB]
    never contains a minus sign, whatever was measured: the tool never asks
    the binary to attenuate. *)
Theorem gain_text_has_no_minus v in_path out_path cfg :
  str_mem "-" (format_number_1f (target_volume v)) = false
  /\ nth 7 (convert_params in_path out_path (target_volume v) cfg) ""
     = "volume=" +:+ format_number_1f (target_volume v) +:+ "dB"
  /\ nth 7 (main_py.wav_params in_path out_path (target_volume v)) ""
     = "volume=" +:+ format_number_1f (target_volume v) +:+ "dB".
Proof.
  split; [|split; reflexivity].
  rewrite target_volume_abs. unfold format_number_1f, to_float.
  destruct v as [s|s| |s m e]; try reflexivity.
  cbn [Float.abs SFabs Float.format_1f].
  pose proof (round_tenths_nonneg m e) as Ht.
  rewrite !str_mem_app.
  rewrite (pretty_Z_no_dash (Float.round_tenths m e / 10))
    by (apply Z.div_pos; lia).
  rewrite (pretty_Z_no_dash (Float.round_tenths m e mod 10))
    by (apply Z.mod_pos_bound; lia).
  reflexivity.
Qed.

Lemma binary_round_aux_opp prec emax m e l :
  binary_round_aux prec emax true m e l
  = SFopp (binary_round_aux prec emax false m e l).
Proof.
  unfold binary_round_aux.
  destruct (shr_fexp prec emax m e l) as [mrs' e'].
  destruct (shr_fexp prec emax _ e' loc_Exact) as [mrs'' e''].
  destruct (shr_m mrs''); try reflexivity.
  now destruct (e'' <=? emax - prec).
Qed.

Lemma of_decimal_opp m k :
  Float.of_decimal true m k = SFopp (Float.of_decimal false m k).
Proof.
  unfold Float.of_decimal. destruct m as [|p]; [reflexivity|].
  destruct (SFdiv_core_binary _ _ _ _ _ _) as [[q e] l].
  apply binary_round_aux_opp.
Qed.

Lemma sign_split_unsigned s :
  (forall r, s <> String "-" r) ->
  match s with
  | String "-"%char r => (true, r)
  | _ => (false, s)
  end = (false, s).
Proof.
  intros H. destruct s as [|c s]; [reflexivity|].
  destruct c as [[] [] [] [] [] [] [] []]; try reflexivity.
  now destruct (H s).
Qed.

(** X6. The sign of what was measured does not change the gain.  For a text
    [s] that does not start with a minus sign and that [float] reads as [v],
    the text [-s] is read as [-v], and both get the same gain. *)
Theorem gain_ignores_the_sign s v :
  (forall r, s <> String "-" r) ->
  Float.of_string s = Some v ->
  Float.of_string (String "-" s) = Some (SFopp v)
  /\ target_volume (SFopp v) = target_volume v.
Proof.
  intros Hs Hv. split.
  - unfold Float.of_string in *. rewrite (sign_split_unsigned s Hs) in Hv.
    destruct (span is_digit s) as [ip r1].
    destruct r1 as [|c r2].
    + destruct (is_empty ip); [discriminate|].
      injection Hv as <-. now rewrite of_decimal_opp.
    + destruct (Ascii.eqb_spec c ".") as [->|Hc].
      * destruct (span is_digit r2) as [fp r3].
        destruct (negb (is_empty r3)); [discriminate|].
        destruct (is_empty ip && is_empty fp); [discriminate|].
        injection Hv as <-. now rewrite of_decimal_opp.
      * exfalso. destruct c as [[] [] [] [] [] [] [] []]; try discriminate Hv.
        now apply Hc.
  - rewrite !target_volume_abs. now destruct v.
Qed.

Lemma gain_ignores_the_sign_witness :
  Float.of_string "-2.0" = Some (SFopp f2_0)
  /\ target_volume (SFopp f2_0) = target_volume f2_0.
Proof.
  apply (gain_ignores_the_sign "2.0" f2_0); [discriminate|reflexivity].
Defined.

(** ** Presets on the command line *)

Lemma scan_item_consumes token :
  is_preset token = true ->
  exists cfg', forall cfg pats, scan_item (cfg, pats) token = (cfg', pats).
Proof.
  unfold is_preset, scan_item.
  destruct (RE_PRESET_fullmatch token) as [[name d]|]; [|discriminate].
  destruct (PRESET_INFO !! name) as [preset|].
  - intros _. eexists. intros cfg pats. reflexivity.
  - intros H. apply bool_decide_eq_true in H. now destruct H.
Qed.

Lemma scan_item_letters_preset cfg pats name preset d :
  PRESET_INFO !! name = Some preset ->
  str_all is_letter name = true -> str_all is_digit d = true ->
  scan_item (cfg, pats) (name +:+ d)
  = (if is_empty d then preset
     else {| encoder := encoder preset; extension := extension preset;
             bitrate := Some (d +:+ "K") |}, pats).
Proof.
  intros Hp Hn Hd. unfold scan_item.
  assert (Hname : name <> "") by (intros ->; vm_compute in Hp; discriminate).
  rewrite (RE_PRESET_fullmatch_intro name d Hn Hname Hd).
  destruct (is_empty d); now rewrite Hp.
Qed.

(** X7. The first loop of argument preparation consumes a token as a preset
    exactly when the token is one of [aac], [opus], [ogg], [wav], [flac]
    followed by digits (possibly none); every other token, [mp3] and [m4a]
    among them, is appended to the file patterns and leaves the format as
    it was. *)
Theorem tokens_consumed_as_presets cfg pats token :
  ((exists name d, token = name +:+ d
                   /\ name ∈ ["aac"; "opus"; "ogg"; "wav"; "flac"]
                   /\ str_all is_digit d = true) ->
   snd (scan_item (cfg, pats) token) = pats)
  /\ (~ (exists name d, token = name +:+ d
                        /\ name ∈ ["aac"; "opus"; "ogg"; "wav"; "flac"]
                        /\ str_all is_digit d = true) ->
      scan_item (cfg, pats) token = (cfg, pats ++ [token])).
Proof.
  split; intros H.
  - apply is_preset_iff in H.
    destruct (scan_item_consumes token H) as [cfg' Hc]. now rewrite Hc.
  - apply scan_item_not_preset. destruct (is_preset token) eqn:Ht; [|reflexivity].
    destruct H. now apply is_preset_iff.
Qed.

Lemma tokens_consumed_as_presets_witness :
  snd (scan_item (wav_preset, ["song.mp3"]) "opus96") = ["song.mp3"]
  /\ scan_item (wav_preset, ["song.mp3"]) "mp3" = (wav_preset, ["song.mp3"; "mp3"]).
Proof.
  split.
  - apply (proj1 (tokens_consumed_as_presets wav_preset ["song.mp3"] "opus96")).
    exists "opus", "96". repeat split. set_solver.
  - apply (proj2 (tokens_consumed_as_presets wav_preset ["song.mp3"] "mp3")).
    intros (name & d & Heq & Hname & _). set_unfold in Hname.
    destruct Hname as [-> | [-> | [-> | [-> | [-> | []]]]]]; discriminate.
Defined.

(** X8. The last preset token decides the format, whatever files or
    patterns follow it.  For a preset whose name is letters only, the
    prepared format has the encoder of the preset; its bitrate is the
    digits after the name followed by [K], or the bitrate of the table when
    there are no digits; its extension is the one of the [-e] flag when the
    flag is given and the one of the preset otherwise. *)
Theorem last_preset_decides_the_format
    env args pre name d post preset tr output_dir cfg files tr' :
  args_inputs args = pre ++ (name +:+ d) :: post ->
  PRESET_INFO !! name = Some preset ->
  str_all is_letter name = true -> str_all is_digit d = true ->
  (forall t, t ∈ post -> is_preset t = false) ->
  verify_and_prepare_args env args tr = (Return (output_dir, cfg, files), tr') ->
  encoder cfg = encoder preset
  /\ extension cfg = default (extension preset) (args_extension args)
  /\ bitrate cfg = if is_empty d then bitrate preset else Some (d +:+ "K").
Proof.
  intros Hin Hp Hn Hd Hpost. rewrite verify_and_prepare_args_eq.
  destruct (prepare_output_dir env (args_output_dir args)); [|discriminate].
  cbn zeta.
  assert (Hscan : fst (scan_inputs wav_preset (args_inputs args))
                  = if is_empty d then preset
                    else {| encoder := encoder preset; extension := extension preset;
                            bitrate := Some (d +:+ "K") |}).
  { unfold scan_inputs. rewrite Hin, fold_left_app. cbn [fold_left].
    destruct (fold_left scan_item pre (wav_preset, [])) as [cfg0 pats0].
    rewrite (scan_item_letters_preset cfg0 pats0 name preset d Hp Hn Hd).
    now rewrite scan_no_preset. }
  destruct (expand_patterns env _ [] tr) as [[fs|e] tr1]; [|discriminate].
  intros [= _ <- _ _]. rewrite Hscan.
  destruct (is_empty d), (args_extension args); now repeat split.
Qed.

Lemma last_preset_decides_the_format_witness :
  exists output_dir cfg files,
    verify_and_prepare_args Demo.env (Demo.args ["flac"; "song.mp3"; "opus96"; "a.wav"]) []
    = (Return (output_dir, cfg, files), [])
    /\ encoder cfg = "libopus" /\ extension cfg = "opus" /\ bitrate cfg = Some "96K".
Proof.
  exists (Path_of_string "/out"),
    {| encoder := "libopus"; extension := "opus"; bitrate := Some "96K" |},
    [Path_of_string "/music/song.mp3"; Path_of_string "/music/a.wav"].
  split; [reflexivity|].
  apply (last_preset_decides_the_format Demo.env
           (Demo.args ["flac"; "song.mp3"; "opus96"; "a.wav"])
           ["flac"; "song.mp3"] "opus" "96" ["a.wav"]
           {| encoder := "libopus"; extension := "opus"; bitrate := Some "128K" |}
           [] (Path_of_string "/out") _
           [Path_of_string "/music/song.mp3"; Path_of_string "/music/a.wav"] []);
    try reflexivity.
  intros t Ht. set_unfold in Ht. destruct Ht as [-> | []]. reflexivity.
Defined.

Lemma scan_format_only_presets : forall inputs cfg pats pats',
  fst (fold_left scan_item inputs (cfg, pats))
  = fst (fold_left scan_item (filter (fun t => is_preset t = true) inputs)
           (cfg, pats')).
Proof.
  induction inputs as [|t inputs IH]; intros cfg pats pats'; [reflexivity|].
  cbn [fold_left]. destruct (is_preset t) eqn:Ht.
  - rewrite filter_cons_True by exact Ht. cbn [fold_left].
    destruct (scan_item_consumes t Ht) as [cfg' Hc]. rewrite !Hc. apply IH.
  - rewrite filter_cons_False by (simpl; congruence).
    rewrite scan_item_not_preset by exact Ht. apply IH.
Qed.

(** X9. Presets and files may be mixed on the command line in any order:
    the format is the one the preset tokens alone give, and the file
    patterns are the other tokens in their order. *)
Theorem presets_and_files_interleave default inputs :
  scan_inputs default inputs
  = (fst (scan_inputs default (filter (fun t => is_preset t = true) inputs)),
     filter (fun t => is_preset t = false) inputs).
Proof.
  unfold scan_inputs.
  rewrite (surjective_pairing (fold_left scan_item inputs (default, []))).
  f_equal.
  - apply scan_format_only_presets.
  - now rewrite scan_patterns.
Qed.

(** ** Argument preparation *)

(** X10. When the output directory cannot be made or resolved, the run
    consists of the one line [ERROR: Unable to create output directory: ]
    followed by the directory as it was given, whatever the inputs are: no
    input is looked at, nothing is launched, and the exit status is 0. *)
Theorem output_dir_failure_comes_first env args :
  prepare_output_dir env (args_output_dir args) = None ->
  run env args
  = (0, [Stderr (String LF "ERROR: " +:+ "Unable to create output directory: "
                 +:+ args_output_dir args)]).
Proof.
  intros Hd. unfold run, main, do_normalizing.
  now rewrite bind_eq, verify_and_prepare_args_eq, Hd.
Qed.

Lemma output_dir_failure_comes_first_witness :
  run Demo.env_no_output_dir (Demo.args ["no-such-file"; "*.nothing"])
  = (0, [Stderr (String LF "ERROR: Unable to create output directory: /out")]).
Proof.
  apply (output_dir_failure_comes_first Demo.env_no_output_dir
           (Demo.args ["no-such-file"; "*.nothing"])).
  reflexivity.
Defined.

(** X11. Every input is checked before any file is processed: when
    argument preparation raises, [do_normalizing] raises the same exception
    and the trace is as it was, so nothing was printed and the binary was
    not launched, not even for the inputs that are in order. *)
Theorem inputs_are_checked_before_processing env args tr e tr1 :
  verify_and_prepare_args env args tr = (Raise e, tr1) ->
  do_normalizing env args tr = (Raise e, tr).
Proof.
  intros H. pose proof (verify_and_prepare_args_trace _ _ _ _ _ H) as ->.
  unfold do_normalizing. now rewrite bind_eq, H.
Qed.

Lemma inputs_are_checked_before_processing_witness :
  do_normalizing Demo.env (Demo.args ["song.mp3"; "a.wav"; "missing.wav"]) []
  = (Raise (FfmpegNmlzError "Failed to open file: missing.wav"), []).
Proof.
  apply (inputs_are_checked_before_processing Demo.env
           (Demo.args ["song.mp3"; "a.wav"; "missing.wav"]) []
           (FfmpegNmlzError "Failed to open file: missing.wav") []).
  reflexivity.
Defined.

Lemma verify_and_canonicanize_path_checked env p tr f tr' :
  verify_and_canonicanize_path env p tr = (Return f, tr') -> checked env f.
Proof.
  unfold verify_and_canonicanize_path.
  destruct (path_resolve env p) as [q|] eqn:Hq; [|discriminate].
  destruct (can_read env q) eqn:Hr; [|discriminate].
  intros [= <- _]. split; eauto.
Qed.

Lemma verify_all_checked env : forall found tr fs tr',
  verify_all env found tr = (Return fs, tr') -> Forall (checked env) fs.
Proof.
  induction found as [|p found IH]; intros tr fs tr' H; cbn [verify_all] in H.
  - injection H as <- _. constructor.
  - apply bind_Return in H as (f & tr1 & Hf & Hrest).
    apply bind_Return in Hrest as (fs' & tr2 & Hfs & [= <- _]).
    constructor; [eapply verify_and_canonicanize_path_checked|eapply IH]; eauto.
Qed.

Lemma expand_patterns_checked env : forall patterns acc tr files tr',
  expand_patterns env patterns acc tr = (Return files, tr') ->
  Forall (checked env) acc -> Forall (checked env) files.
Proof.
  induction patterns as [|pattern rest IH]; intros acc tr files tr' H Hacc;
    cbn [expand_patterns] in H.
  - now injection H as <- _.
  - destruct (has_wildcard pattern).
    + apply bind_Return in H as (found & tr1 & _ & Hrest).
      apply bind_Return in Hrest as (verified & tr2 & Hv & Hrest).
      destruct found; [discriminate|].
      apply IH in Hrest; [exact Hrest|].
      apply Forall_app. split; [exact Hacc|]. eapply verify_all_checked; eauto.
    + apply bind_Return in H as (f & tr1 & Hf & Hrest).
      apply IH in Hrest; [exact Hrest|].
      apply Forall_app. split; [exact Hacc|].
      constructor; [|constructor]. eapply verify_and_canonicanize_path_checked; eauto.
Qed.

(** X12. What argument preparation returns is sound: the output directory
    is the prepared one, and every file handed to the loop is the strict
    resolution of some path and could be opened and read. *)
Theorem prepared_files_were_resolved_and_read env args tr output_dir cfg files tr' :
  verify_and_prepare_args env args tr = (Return (output_dir, cfg, files), tr') ->
  prepare_output_dir env (args_output_dir args) = Some output_dir
  /\ forall f, f ∈ files ->
       can_read env f = true /\ exists p, path_resolve env p = Some f.
Proof.
  rewrite verify_and_prepare_args_eq.
  destruct (prepare_output_dir env (args_output_dir args)) as [d|]; [|discriminate].
  cbn zeta.
  destruct (expand_patterns env _ [] tr) as [[fs|e] tr1] eqn:He; [|discriminate].
  intros [= <- _ <- _]. split; [reflexivity|].
  intros f Hf. apply (proj1 (elem_of_remove_duplicates _ _)) in Hf.
  apply expand_patterns_checked in He; [|constructor].
  rewrite Forall_forall in He. exact (He f Hf).
Qed.

Lemma prepared_files_were_resolved_and_read_witness :
  prepare_output_dir Demo.env "/out" = Some (Path_of_string "/out")
  /\ forall f, f ∈ [Path_of_string "/music/song.mp3"; Path_of_string "/music/a.wav"] ->
       can_read Demo.env f = true /\ exists p, path_resolve Demo.env p = Some f.
Proof.
  apply (prepared_files_were_resolved_and_read Demo.env
           (Demo.args ["*"; "song.mp3"]) [] (Path_of_string "/out") wav_preset
           [Path_of_string "/music/song.mp3"; Path_of_string "/music/a.wav"] []).
  reflexivity.
Defined.

(** X13. A token without [*] or [?] that is not a preset is taken as a file.
    When the output directory could be prepared and every file or pattern
    before the token resolved, and the token's path cannot be resolved,
    preparation raises "Failed to open file: " followed by the path as
    [pathlib] prints it (not the token as typed); when it resolves but
    cannot be read, the message names the resolved path. *)
Theorem unreadable_file_is_reported env args pre token post output_dir files tr tr' :
  args_inputs args = pre ++ token :: post ->
  is_preset token = false -> has_wildcard token = false ->
  prepare_output_dir env (args_output_dir args) = Some output_dir ->
  expand_patterns env (snd (scan_inputs wav_preset pre)) [] tr = (Return files, tr') ->
  (path_resolve env (Path_of_string token) = None ->
   verify_and_prepare_args env args tr
   = (Raise (FfmpegNmlzError
               ("Failed to open file: " +:+ Path_str (Path_of_string token))), tr'))
  /\ (forall p, path_resolve env (Path_of_string token) = Some p ->
      can_read env p = false ->
      verify_and_prepare_args env args tr
      = (Raise (FfmpegNmlzError ("Failed to open file: " +:+ Path_str p)), tr')).
Proof.
  intros Hin Hnp Hw Hdir Hpre.
  assert (Heq : verify_and_prepare_args env args tr
                = match verify_and_canonicanize_path env (Path_of_string token) tr' with
                  | (Return f, tr1) =>
                      match expand_patterns env
                              (filter (fun t => is_preset t = false) post)
                              (files ++ [f]) tr1 with
                      | (Return fs, tr2) =>
                          (Return (output_dir,
                                   override_extension (args_extension args)
                                     (fst (scan_inputs wav_preset (args_inputs args))),
                                   remove_duplicates fs), tr2)
                      | (Raise e, tr2) => (Raise e, tr2)
                      end
                  | (Raise e, tr1) => (Raise e, tr1)
                  end).
  { rewrite verify_and_prepare_args_eq, Hdir. cbn zeta.
    unfold scan_inputs in *. rewrite scan_patterns in *. rewrite Hin at 1.
    rewrite filter_app, filter_cons_True by exact Hnp.
    rewrite app_nil_l in *. rewrite expand_patterns_app, Hpre.
    cbn [expand_patterns]. rewrite Hw, bind_eq.
    destruct (verify_and_canonicanize_path env _ tr') as [[f|e] tr1]; reflexivity. }
  rewrite Heq. unfold verify_and_canonicanize_path. split.
  - now intros ->.
  - now intros p -> ->.
Qed.

Lemma unreadable_file_is_reported_witness :
  verify_and_prepare_args Demo.env (Demo.args ["song.mp3"; "./nowhere//x.wav"; "a.wav"]) []
  = (Raise (FfmpegNmlzError "Failed to open file: nowhere/x.wav"), []).
Proof.
  apply (proj1 (unreadable_file_is_reported Demo.env
                  (Demo.args ["song.mp3"; "./nowhere//x.wav"; "a.wav"])
                  ["song.mp3"] "./nowhere//x.wav" ["a.wav"]
                  (Path_of_string "/out") [Path_of_string "/music/song.mp3"] [] []
                  eq_refl eq_refl eq_refl eq_refl eq_refl)).
  reflexivity.
Defined.

(** ** What escapes [main] *)

Lemma verify_and_canonicanize_path_raise env p tr e tr' :
  verify_and_canonicanize_path env p tr = (Raise e, tr') ->
  exists message, e = FfmpegNmlzError message.
Proof.
  unfold verify_and_canonicanize_path.
  destruct (path_resolve env p) as [q|]; [destruct (can_read env q)|];
    intros [= <- _]; eauto.
Qed.

Lemma verify_all_raise env : forall found tr e tr',
  verify_all env found tr = (Raise e, tr') ->
  exists message, e = FfmpegNmlzError message.
Proof.
  induction found as [|p found IH]; intros tr e tr'; cbn [verify_all];
    [discriminate|].
  rewrite bind_eq.
  destruct (verify_and_canonicanize_path env p tr) as [[f|e1] tr1] eqn:Hf.
  - rewrite bind_eq. destruct (verify_all env found tr1) as [[fs|e2] tr2] eqn:Hfs;
      [discriminate|].
    intros [= <- _]. eapply IH; eauto.
  - intros [= <- _]. eapply verify_and_canonicanize_path_raise; eauto.
Qed.

Lemma expand_patterns_raise env : forall patterns acc tr e tr',
  expand_patterns env patterns acc tr = (Raise e, tr') ->
  (exists message, e = FfmpegNmlzError message)
  \/ exists pattern, pattern ∈ patterns /\ has_wildcard pattern = true
                     /\ glob env pattern = Raise e.
Proof.
  induction patterns as [|pattern rest IH]; intros acc tr e tr';
    cbn [expand_patterns]; [discriminate|].
  assert (Hrest : forall acc1 tr1,
             expand_patterns env rest acc1 tr1 = (Raise e, tr') ->
             (exists message, e = FfmpegNmlzError message)
             \/ exists q, q ∈ pattern :: rest /\ has_wildcard q = true
                          /\ glob env q = Raise e).
  { intros acc1 tr1 H. destruct (IH _ _ _ _ H) as [Hm|(q & Hq & Hw & Hg)];
      [now left|right]. exists q. split; [now right|now split]. }
  destruct (has_wildcard pattern) eqn:Hw; rewrite bind_eq.
  - unfold lift. destruct (glob env pattern) as [found|e1] eqn:Hg.
    + rewrite bind_eq.
      destruct (verify_all env found tr) as [[verified|e2] tr2] eqn:Hv.
      * destruct found; [intros [= <- _]; left; eauto|apply Hrest].
      * intros [= <- _]. left. eapply verify_all_raise; eauto.
    + intros [= <- _]. right. exists pattern. split; [now left|now split].
  - destruct (verify_and_canonicanize_path env _ tr) as [[f|e1] tr1] eqn:Hf;
      [apply Hrest|].
    intros [= <- _]. left. eapply verify_and_canonicanize_path_raise; eauto.
Qed.

Lemma call_ffmpeg_raise env params tr e tr' :
  call_ffmpeg env params tr = (Raise e, tr') ->
  (exists message, e = FfmpegNmlzError message) \/ communicate_raised env e.
Proof.
  rewrite call_ffmpeg_eq.
  destruct (run_process env tr params) as [| |c|rc out] eqn:Hrun;
    try (intros [= <- _]; eauto).
  - right. now exists tr, params, c.
  - destruct (rc =? 0); [discriminate|]. intros [= <- _]. eauto.
Qed.

Lemma parse_max_volume_raise stdout tr e tr' :
  parse_max_volume stdout tr = (Raise e, tr') ->
  e = PyError "AttributeError" \/ e = PyError "ValueError".
Proof.
  unfold parse_max_volume.
  destruct (VOLUME_REGEX_search stdout) as [g|]; [destruct (Float.of_string g)|];
    try discriminate; intros [= <- _]; auto.
Qed.

Lemma ffmpeg_get_max_volume_trace env in_path tr r tr' :
  ffmpeg_get_max_volume env in_path tr = (r, tr') ->
  tr' = tr ++ [Popen (detect_params in_path)].
Proof.
  unfold ffmpeg_get_max_volume. rewrite bind_eq.
  destruct (call_ffmpeg env _ tr) as [[out|e] tr1] eqn:Hc;
    pose proof (call_ffmpeg_trace _ _ _ _ _ Hc) as ->.
  - intros H. now apply parse_max_volume_trace in H.
  - now intros [= _ <-].
Qed.

Lemma ffmpeg_get_max_volume_raise env in_path tr e tr' :
  ffmpeg_get_max_volume env in_path tr = (Raise e, tr') ->
  (exists message, e = FfmpegNmlzError message)
  \/ e = PyError "AttributeError" \/ e = PyError "ValueError"
  \/ communicate_raised env e.
Proof.
  unfold ffmpeg_get_max_volume. rewrite bind_eq.
  destruct (call_ffmpeg env _ tr) as [[out|e1] tr1] eqn:Hc.
  - intros H. apply parse_max_volume_raise in H as [H|H]; auto.
  - intros [= <- _]. apply call_ffmpeg_raise in Hc as [H|H]; auto.
Qed.

Lemma normalize_file_eq env d c i p tr :
  normalize_file env d c i p tr =
  match ffmpeg_get_max_volume env (Path_str p)
          (tr ++ [Stdout ("> File " +:+ pretty (i + 1)%nat +:+ ": " +:+ Path_name p)]) with
  | (Return v, tr2) =>
      match call_ffmpeg env
              (convert_params (Path_str p) (Path_str (get_out_path d c p))
                 (target_volume v) c)
              ((tr2 ++ [Stdout ("    Max volume: " +:+ float_str env v +:+ " dB")])
               ++ [Stdout ("    Encoding..." +:+ String LF "")]) with
      | (Return _, tr3) => (Return tt, tr3)
      | (Raise e, tr3) => (Raise e, tr3)
      end
  | (Raise e, tr2) => (Raise e, tr2)
  end.
Proof.
  unfold normalize_file, ffmpeg_convert_with_volume_filter, print, emit.
  unfold mbind, Py_bind. cbn beta iota zeta.
  destruct (ffmpeg_get_max_volume env (Path_str p) _) as [[v|e] tr2]; [|reflexivity].
  destruct (call_ffmpeg env _ _) as [[o|e] tr3]; reflexivity.
Qed.

(** The two launches for one file, in their order: the measure is always
    launched; the encoding only after a measure that returned. *)
Lemma normalize_file_launches env d c i p tr r tr' :
  normalize_file env d c i p tr = (r, tr') ->
  (exists e, r = Raise e
             /\ popen_calls tr' = popen_calls tr ++ [detect_params (Path_str p)]
             /\ ((exists message, e = FfmpegNmlzError message)
                 \/ e = PyError "AttributeError" \/ e = PyError "ValueError"
                 \/ communicate_raised env e))
  \/ (exists v, popen_calls tr' = popen_calls tr ++ calls_for d c p v
                /\ (r = Return tt
                    \/ exists e, r = Raise e
                         /\ ((exists message, e = FfmpegNmlzError message)
                             \/ communicate_raised env e))).
Proof.
  rewrite normalize_file_eq.
  destruct (ffmpeg_get_max_volume env (Path_str p) _) as [[v|e] tr2] eqn:Hm;
    pose proof (ffmpeg_get_max_volume_trace _ _ _ _ _ Hm) as ->.
  - destruct (call_ffmpeg env _ _) as [[o|e] tr3] eqn:Hc;
      pose proof (call_ffmpeg_trace _ _ _ _ _ Hc) as ->;
      intros [= <- <-]; right; exists v;
      (split; [rewrite !popen_calls_app; simpl; rewrite !app_nil_r;
               now rewrite <- app_assoc|]).
    + now left.
    + right. exists e. split; [reflexivity|]. eapply call_ffmpeg_raise; eauto.
  - intros [= <- <-]. left. exists e. repeat split.
    + rewrite !popen_calls_app. simpl. now rewrite app_nil_r.
    + eapply ffmpeg_get_max_volume_raise; eauto.
Qed.

Lemma normalize_files_raise env d c : forall files i tr e tr',
  normalize_files env d c i files tr = (Raise e, tr') ->
  (exists message, e = FfmpegNmlzError message)
  \/ e = PyError "AttributeError" \/ e = PyError "ValueError"
  \/ communicate_raised env e.
Proof.
  induction files as [|p files IH]; intros i tr e tr'; cbn [normalize_files];
    [discriminate|].
  rewrite bind_eq.
  destruct (normalize_file env d c i p tr) as [[[]|e1] tr1] eqn:Hp; [apply IH|].
  intros [= <- _].
  apply normalize_file_launches in Hp
    as [(e' & [= <-] & _ & He)|(v & _ & [Hr|(e' & [= <-] & He)])].
  - exact He.
  - discriminate.
  - destruct He as [He|He]; auto.
Qed.

(** X14. With printing taken not to fail and no interrupt, the process ends
    with status 1 in four cases only: [glob] raised on one of the input
    tokens that has a wildcard, or [communicate()] raised after a launch
    (as it does on output that is not UTF-8), or a report of the measuring
    pass had no line for the pattern ([AttributeError]), or the text
    captured from it was not a number ([ValueError]).  The program then
    prints no [ERROR:] line: the last thing on standard error is the
    traceback of that exception. *)
Theorem uncaught_exceptions env args :
  fst (run env args) = 1 ->
  exists e tr,
    do_normalizing env args [] = (Raise e, tr)
    /\ snd (run env args) = tr ++ [Traceback e]
    /\ (e = PyError "AttributeError" \/ e = PyError "ValueError"
        \/ (exists pattern, pattern ∈ args_inputs args
                            /\ has_wildcard pattern = true
                            /\ glob env pattern = Raise e)
        \/ communicate_raised env e).
Proof.
  unfold run, main.
  destruct (do_normalizing env args []) as [[[]|e] tr] eqn:Hdo; [discriminate|].
  destruct e as [message|cls]; [discriminate|]. intros _.
  exists (PyError cls), tr. repeat split.
  unfold do_normalizing in Hdo. rewrite bind_eq in Hdo.
  destruct (verify_and_prepare_args env args []) as [[[[d c] files]|e1] tr1] eqn:Hv.
  - apply normalize_files_raise in Hdo as [[m Hm]|[H|[H|H]]]; [discriminate|auto..].
  - injection Hdo as -> ->. rewrite verify_and_prepare_args_eq in Hv.
    destruct (prepare_output_dir env (args_output_dir args)); [|discriminate].
    cbn zeta in Hv.
    destruct (expand_patterns env _ [] []) as [[fs|e2] tr2] eqn:He; [discriminate|].
    injection Hv as -> ->.
    apply expand_patterns_raise in He as [[m Hm]|(q & Hq & Hw & Hg)]; [discriminate|].
    right. right. left. exists q. repeat split; try assumption.
    unfold scan_inputs in Hq. rewrite scan_patterns, app_nil_l in Hq.
    apply list_elem_of_filter in Hq. apply Hq.
Qed.

Lemma uncaught_exceptions_witness :
  exists e tr,
    do_normalizing Demo.env_undecodable (Demo.args ["a.wav"]) [] = (Raise e, tr)
    /\ snd (run Demo.env_undecodable (Demo.args ["a.wav"])) = tr ++ [Traceback e]
    /\ (e = PyError "AttributeError" \/ e = PyError "ValueError"
        \/ (exists pattern, pattern ∈ ["a.wav"] /\ has_wildcard pattern = true
                            /\ glob Demo.env_undecodable pattern = Raise e)
        \/ communicate_raised Demo.env_undecodable e).
Proof.
  exact (uncaught_exceptions Demo.env_undecodable (Demo.args ["a.wav"]) eq_refl).
Defined.

(** ** The loop over the files *)

(** X15. Whatever happens in the loop, the binary is launched only on the
    files the loop was given: to measure one of them, or to encode one of
    them into its own output path with a gain computed by the gain formula.
    There are at most two launches for each file. *)
Theorem launches_are_for_the_given_files env d c : forall files i tr r tr',
  normalize_files env d c i files tr = (r, tr') ->
  exists calls,
    popen_calls tr' = popen_calls tr ++ calls
    /\ (length calls <= 2 * length files)%nat
    /\ forall params, params ∈ calls ->
         exists p, p ∈ files
           /\ (params = detect_params (Path_str p)
               \/ exists v, params = convert_params (Path_str p)
                                       (Path_str (get_out_path d c p))
                                       (target_volume v) c).
Proof.
  induction files as [|p files IH]; intros i tr r tr'; cbn [normalize_files].
  - intros [= _ <-]. exists []. rewrite app_nil_r. repeat split; [simpl; lia|].
    intros params H. now apply elem_of_nil in H.
  - rewrite bind_eq.
    destruct (normalize_file env d c i p tr) as [r1 tr1] eqn:Hp.
    assert (Hone : exists calls1,
               popen_calls tr1 = popen_calls tr ++ calls1
               /\ (length calls1 <= 2)%nat
               /\ forall params, params ∈ calls1 ->
                    params = detect_params (Path_str p)
                    \/ exists v, params = convert_params (Path_str p)
                                            (Path_str (get_out_path d c p))
                                            (target_volume v) c).
    { apply normalize_file_launches in Hp as [(e & _ & Hc & _)|(v & Hc & _)].
      - eexists. split; [exact Hc|]. split; [simpl; lia|].
        intros params H. apply list_elem_of_singleton in H. now left.
      - eexists. split; [exact Hc|]. split; [simpl; lia|].
        intros params H. unfold calls_for in H. set_unfold in H.
        destruct H as [-> | [-> | []]]; [now left|right; eauto]. }
    destruct Hone as (calls1 & Hc1 & Hlen1 & Hin1).
    destruct r1 as [[]|e].
    + intros H. apply IH in H as (calls & Hc & Hlen & Hin).
      exists (calls1 ++ calls). rewrite Hc, Hc1, <- app_assoc.
      split; [reflexivity|]. split; [rewrite length_app; simpl; lia|].
      intros params H. apply elem_of_app in H as [H|H].
      * exists p. split; [now left|now apply Hin1].
      * destruct (Hin params H) as (q & Hq & Hparams).
        exists q. split; [now right|exact Hparams].
    + intros [= _ <-]. exists calls1. split; [exact Hc1|].
      split; [simpl; lia|].
      intros params H. exists p. split; [now left|now apply Hin1].
Qed.

Lemma launches_are_for_the_given_files_witness :
  exists calls,
    popen_calls [Stdout "> File 1: song.mp3";
                 Popen (detect_params "/music/song.mp3")] = [] ++ calls
    /\ (length calls <= 2 * 2)%nat.
Proof.
  destruct (launches_are_for_the_given_files Demo.env_no_ffmpeg
              (Path_of_string "/out") wav_preset
              [Path_of_string "/music/song.mp3"; Path_of_string "/music/a.wav"]
              0%nat []
              (Raise (FfmpegNmlzError
                        "FFmpeg is not installed. Please install FFmpeg first."))
              [Stdout "> File 1: song.mp3"; Popen (detect_params "/music/song.mp3")]
              eq_refl) as (calls & Hc & Hlen & _).
  exists calls. split; [exact Hc|exact Hlen].
Defined.

(** ** Removing duplicates, again *)

Lemma remove_duplicates_NoDup {K} `{EqDecision K} (l : list K) :
  NoDup l -> remove_duplicates l = l.
Proof.
  induction l as [|a l IH] using rev_ind; intros H; [reflexivity|].
  apply NoDup_app in H as (Hl & Ha & _).
  rewrite remove_duplicates_snoc, (IH Hl).
  rewrite decide_False; [reflexivity|].
  intros Hin. apply (Ha a Hin). now left.
Qed.

(** X16. Removing duplicates changes nothing in a list without duplicates,
    so doing it twice is doing it once; and the result is never longer than
    the input. *)
Theorem remove_duplicates_is_idempotent (l : list Path) :
  (NoDup l -> remove_duplicates l = l)
  /\ remove_duplicates (remove_duplicates l) = remove_duplicates l
  /\ (length (remove_duplicates l) <= length l)%nat.
Proof.
  split; [apply remove_duplicates_NoDup|]. split.
  - apply remove_duplicates_NoDup, NoDup_remove_duplicates.
  - apply sublist_length, remove_duplicates_sublist.
Qed.

Lemma remove_duplicates_is_idempotent_witness :
  remove_duplicates [Path_of_string "/music/a.wav"; Path_of_string "/music/song.mp3"]
  = [Path_of_string "/music/a.wav"; Path_of_string "/music/song.mp3"].
Proof.
  apply (proj1 (remove_duplicates_is_idempotent _)).
  apply NoDup_cons. split; [|apply NoDup_singleton].
  intros H. apply list_elem_of_singleton in H. discriminate.
Defined.

(** ** Output paths that coincide *)

Lemma str_app_inj_r u : forall s t, s +:+ u = t +:+ u -> s = t.
Proof.
  induction s as [|a s IH]; intros [|b t] H.
  - reflexivity.
  - apply (f_equal String.length) in H.
    rewrite !str_app_length in H. simpl in H. lia.
  - apply (f_equal String.length) in H.
    rewrite !str_app_length in H. simpl in H. lia.
  - rewrite !str_app_cons in H. injection H as -> H. f_equal. now apply IH.
Qed.

(** X17. Two inputs are given the same output path exactly when they have
    the same stem (for an extension without a separator): [a.wav] and
    [a.mp3], or two files called alike in different directories, which the
    removal of duplicates keeps apart, are written to one file. *)
Theorem same_output_iff_same_stem d c p q :
  wf_path p -> wf_path q -> str_mem "/" (extension c) = false ->
  get_out_path d c p = get_out_path d c q <-> Path_stem p = Path_stem q.
Proof.
  intros Hp Hq Hc. split.
  - rewrite !get_out_path_parts by assumption. intros [= H].
    apply app_inj_tail in H as [_ H]. now apply str_app_inj_r in H.
  - unfold get_out_path. now intros ->.
Qed.

Lemma same_output_iff_same_stem_witness :
  get_out_path (Path_of_string "/out") wav_preset (Path_of_string "/music/a.wav")
  = get_out_path (Path_of_string "/out") wav_preset (Path_of_string "/other/a.mp3").
Proof.
  apply (same_output_iff_same_stem (Path_of_string "/out") wav_preset
           (Path_of_string "/music/a.wav") (Path_of_string "/other/a.mp3")).
  - repeat constructor.
  - repeat constructor.
  - reflexivity.
  - reflexivity.
Defined.

Lemma wav_candidate_collides p :
  wf_path p -> wav_candidate p false = p <-> Path_suffix p = ".wav".
Proof.
  intros Hp. rewrite (wav_candidate_parts p false Hp). split.
  - intros Heq. apply (f_equal Path_name) in Heq.
    rewrite Path_name_snoc, <- Path_stem_suffix in Heq.
    apply (inj _) in Heq. now symmetry.
  - intros Hs.
    assert (Hn : Path_name p = Path_stem p +:+ ".wav")
      by (now rewrite <- Path_stem_suffix, Hs).
    destruct p as [rt ps]. unfold Path_name in Hn. simpl in *. f_equal.
    destruct ps as [|x ps].
    + simpl in Hn. apply (f_equal String.length) in Hn.
      rewrite str_app_length in Hn. simpl in Hn. lia.
    + rewrite <- Hn. symmetry. apply app_removelast_last. discriminate.
Qed.

(** X18. [parse_file_input] puts the output beside the input under the name
    [stem.wav], with no ["-1"]: its output path is its input path exactly
    when the input has the suffix [.wav].  When the input cannot be
    resolved, what [resolve] raises propagates, with the class it has. *)
Theorem parse_file_input_overwrites_wav env input_item :
  (path_resolve env (Path_of_string input_item) = None ->
   parse_file_input env input_item
   = Raise (PyError (resolve_error env (Path_of_string input_item))))
  /\ (forall cfg, parse_file_input env input_item = Return cfg ->
      wf_path (in_path cfg) ->
      path_resolve env (Path_of_string input_item) = Some (in_path cfg)
      /\ out_path cfg = wav_candidate (in_path cfg) false
      /\ (out_path cfg = in_path cfg <-> Path_suffix (in_path cfg) = ".wav")).
Proof.
  unfold parse_file_input. split.
  - now intros ->.
  - intros cfg.
    destruct (path_resolve env (Path_of_string input_item)) as [p|]; [|discriminate].
    intros [= <-] Hp. cbn [in_path out_path] in *.
    repeat split; try apply wav_candidate_collides; try assumption;
      now apply wav_candidate_collides.
Qed.

Lemma parse_file_input_overwrites_wav_witness :
  parse_file_input Demo.env "a.wav"
  = Return {| in_path := Path_of_string "/music/a.wav";
              out_path := Path_of_string "/music/a.wav" |}
  /\ wav_candidate (Path_of_string "/music/a.wav") false
     = Path_of_string "/music/a.wav".
Proof.
  split; [reflexivity|].
  destruct (proj2 (parse_file_input_overwrites_wav Demo.env "a.wav")
              {| in_path := Path_of_string "/music/a.wav";
                 out_path := Path_of_string "/music/a.wav" |}
              eq_refl ltac:(repeat constructor)) as (_ & H & _).
  symmetry. exact H.
Defined.

(** ** [main.py] *)



Lemma main_py_measure_trace env in_path tr r tr' :
  main_py.ffmpeg_get_max_volume env in_path tr = (r, tr') ->
  tr' = tr ++ [Popen (detect_params in_path)].
Proof.
  unfold main_py.ffmpeg_get_max_volume.
  destruct (run_process env tr (detect_params in_path)) as [| | |rc out];
    try (now intros [= _ <-]).
  intros H. now apply parse_max_volume_trace in H.
Qed.

Lemma normalize_Return env s o tr tr' :
  main_py.normalize env s o tr = (Return tt, tr') ->
  exists input output v,
    main_py.get_path env s o = Return (input, output)
    /\ main_py.ffmpeg_get_max_volume env (Path_str input) tr
       = (Return v, tr ++ [Popen (detect_params (Path_str input))])
    /\ str_endswith ".wav" (Path_str output) = true
    /\ popen_calls tr'
       = popen_calls tr
         ++ [detect_params (Path_str input);
             main_py.wav_params (Path_str input) (Path_str output)
               (target_volume v)].
Proof.
  unfold main_py.normalize. intros H.
  apply bind_Return in H as ([input output] & tr0 & Hg & H1).
  unfold lift in Hg. injection Hg as Hg <-.
  apply bind_Return in H1 as (v & tr1 & Hm & H2).
  pose proof (main_py_measure_trace _ _ _ _ _ Hm) as ->.
  unfold print, emit in H2.
  apply bind_Return in H2 as (u1 & tr2 & [= <-] & H3).
  apply bind_Return in H3 as (u2 & tr3 & [= <-] & H4).
  unfold main_py.ffmpeg_convert_to_wav in H4.
  destruct (str_endswith ".wav" (Path_str output)) eqn:Hw; [|discriminate].
  cbn [negb] in H4.
  exists input, output, v. split; [exact Hg|]. split; [exact Hm|].
  split; [exact Hw|].
  destruct (run_process env _ _); try discriminate;
    injection H4 as <-; subst; rewrite !popen_calls_app; simpl;
    rewrite !app_nil_r; now rewrite <- app_assoc.
Qed.

(** X20. [normalize] launches nothing when the paths cannot be derived.
    When it returns, the paths were derived, the measuring pass on the input
    returned a value, the output as a string ends with [.wav], and there
    were exactly two launches: the measure of the input, then the encoding
    of the input into the output with the gain computed from the value
    that this measure returned. *)
Theorem normalize_launches_twice env s o tr :
  (forall e, main_py.get_path env s o = Raise e ->
             main_py.normalize env s o tr = (Raise e, tr))
  /\ (forall tr', main_py.normalize env s o tr = (Return tt, tr') ->
      exists input output v,
        main_py.get_path env s o = Return (input, output)
        /\ main_py.ffmpeg_get_max_volume env (Path_str input) tr
           = (Return v, tr ++ [Popen (detect_params (Path_str input))])
        /\ str_endswith ".wav" (Path_str output) = true
        /\ popen_calls tr'
           = popen_calls tr
             ++ [detect_params (Path_str input);
                 main_py.wav_params (Path_str input) (Path_str output)
                   (target_volume v)]).
Proof.
  split.
  - intros e He. unfold main_py.normalize. rewrite bind_eq. unfold lift.
    now rewrite He.
  - apply normalize_Return.
Qed.

Lemma normalize_launches_twice_witness :
  main_py.normalize Demo.env "missing.wav" None [Stdout "> File 1: missing.wav"]
  = (Raise (PyError "FileNotFoundError"), [Stdout "> File 1: missing.wav"])
  /\ exists input output v,
       main_py.get_path Demo.env "song.mp3" None = Return (input, output)
       /\ main_py.ffmpeg_get_max_volume Demo.env (Path_str input) []
          = (Return v, [] ++ [Popen (detect_params (Path_str input))])
       /\ str_endswith ".wav" (Path_str output) = true
       /\ popen_calls
            [Popen (detect_params "/music/song.mp3");
             Stdout "    Max volume: -3.2 dB";
             Stdout ("    Encoding..." +:+ String LF "");
             Popen (main_py.wav_params "/music/song.mp3" "/music/song.wav"
                      (target_volume (SFopp f3_2)))]
          = popen_calls []
            ++ [detect_params (Path_str input);
                main_py.wav_params (Path_str input) (Path_str output)
                  (target_volume v)].
Proof.
  split.
  - apply (proj1 (normalize_launches_twice Demo.env "missing.wav" None
                    [Stdout "> File 1: missing.wav"])).
    reflexivity.
  - apply (proj2 (normalize_launches_twice Demo.env "song.mp3" None [])).
    reflexivity.
Defined.

(** X21. [main.py] catches nothing: once an input has failed, the inputs
    after it play no part, and the outcome and the trace are those of the
    run without them; and when the loop returns there were exactly two
    launches for each input. *)
Theorem main_py_loop_stops_at_first_failure env :
  (forall pre i f post tr e tr',
      main_py.main_loop env i (pre ++ [f]) tr = (Raise e, tr') ->
      main_py.main_loop env i (pre ++ f :: post) tr = (Raise e, tr'))
  /\ (forall inputs i tr tr',
      main_py.main_loop env i inputs tr = (Return tt, tr') ->
      length (popen_calls tr') = (length (popen_calls tr) + 2 * length inputs)%nat).
Proof.
  split.
  - induction pre as [|p pre IH]; intros i f post tr e tr';
      cbn [app main_py.main_loop]; rewrite !bind_eq.
    + destruct (print _ tr) as [[[]|e0] tr0]; [|auto]. rewrite !bind_eq.
      destruct (main_py.normalize env f None tr0) as [[[]|e1] tr1];
        [discriminate|auto].
    + destruct (print _ tr) as [[[]|e0] tr0]; [|auto]. rewrite !bind_eq.
      destruct (main_py.normalize env p None tr0) as [[[]|e1] tr1];
        [apply IH|auto].
  - induction inputs as [|f inputs IH]; intros i tr tr';
      cbn [main_py.main_loop].
    + intros [= <-]. simpl. lia.
    + intros H.
      apply bind_Return in H as (u1 & tr0 & Hpr & H1).
      unfold print, emit in Hpr. injection Hpr as _ <-.
      apply bind_Return in H1 as ([] & tr1 & Hn & H2).
      apply normalize_Return in Hn as (input & output & v & _ & _ & _ & Hc).
      apply IH in H2. rewrite H2, Hc, popen_calls_app, !length_app.
      simpl. lia.
Qed.

Lemma main_py_loop_stops_at_first_failure_witness :
  main_py.main_loop Demo.env_no_ffmpeg 0 ["song.mp3"; "a.wav"] []
  = (Raise (PyError "FileNotFoundError"),
     [Stdout "> File 1: song.mp3"; Popen (detect_params "/music/song.mp3")]).
Proof.
  apply (proj1 (main_py_loop_stops_at_first_failure Demo.env_no_ffmpeg)
           [] 0%nat "song.mp3" ["a.wav"] []).
  reflexivity.
Defined.

(** ** When the measuring step finds nothing *)

Lemma VOLUME_REGEX_search_finds : forall pre g post,
  str_all is_volume_char g = true -> g <> "" ->
  exists g', VOLUME_REGEX_search (pre +:+ volume_line g +:+ post) = Some g'.
Proof.
  induction pre as [|a pre IH]; intros g post Hg Hne.
  - exists g. rewrite str_app_nil_l.
    now apply VOLUME_REGEX_search_here, VOLUME_REGEX_match_intro.
  - rewrite str_app_cons, VOLUME_REGEX_search_eq.
    destruct (VOLUME_REGEX_match _) as [g0|]; [eauto|]. now apply IH.
Qed.

(** X22. The measuring step raises [AttributeError] exactly when the report
    has no line for the pattern anywhere: no place where [max_volume: ], a
    non-empty run of minus signs, digits and dots, [ dB] and a line feed
    follow one another. *)
Theorem attribute_error_iff_no_volume_line stdout tr :
  parse_max_volume stdout tr = (Raise (PyError "AttributeError"), tr)
  <-> ~ exists pre g post,
          stdout = pre +:+ volume_line g +:+ post
          /\ str_all is_volume_char g = true /\ g <> "".
Proof.
  unfold parse_max_volume. split.
  - intros H (pre & g & post & -> & Hg & Hne).
    destruct (VOLUME_REGEX_search_finds pre g post Hg Hne) as [g' Hs].
    rewrite Hs in H. destruct (Float.of_string g'); discriminate.
  - intros H. destruct (VOLUME_REGEX_search stdout) as [g|] eqn:Hs; [|reflexivity].
    destruct H. apply VOLUME_REGEX_search_elim in Hs as (pre & post & Hs).
    now exists pre, g, post.
Qed.

Lemma attribute_error_iff_no_volume_line_witness :
  parse_max_volume "max_volume: -3.2 dB" []
  = (Raise (PyError "AttributeError"), [])
  /\ exists g', VOLUME_REGEX_search Demo.report = Some g'.
Proof.
  split; [reflexivity|].
  destruct (VOLUME_REGEX_search Demo.report) as [g|] eqn:Hs; [eauto|].
  exfalso.
  assert (Hp : parse_max_volume Demo.report []
               = (Raise (PyError "AttributeError"), []))
    by (unfold parse_max_volume; now rewrite Hs).
  apply (proj1 (attribute_error_iff_no_volume_line Demo.report [])) in Hp.
  apply Hp. exists "[Parsed_volumedetect_0 @ 0x55] ", "-3.2", "".
  repeat split. discriminate.
Defined.

(** ** C1: the gain that reaches the encoding pass *)

Lemma parse_max_volume_not_nan stdout tr v tr' :
  parse_max_volume stdout tr = (Return v, tr') -> v <> S754_nan.
Proof.
  unfold parse_max_volume.
  destruct (VOLUME_REGEX_search stdout) as [g|]; [|discriminate].
  destruct (Float.of_string g) as [v'|] eqn:Hg; [|discriminate].
  intros [= <- _]. now apply of_string_not_nan in Hg.
Qed.

Lemma ffmpeg_get_max_volume_not_nan env in_path tr v tr' :
  ffmpeg_get_max_volume env in_path tr = (Return v, tr') -> v <> S754_nan.
Proof.
  unfold ffmpeg_get_max_volume. intros H.
  apply bind_Return in H as (out & tr1 & _ & Hp).
  now apply parse_max_volume_not_nan in Hp.
Qed.

Lemma main_py_measure_not_nan env in_path tr v tr' :
  main_py.ffmpeg_get_max_volume env in_path tr = (Return v, tr') -> v <> S754_nan.
Proof.
  unfold main_py.ffmpeg_get_max_volume.
  destruct (run_process env tr (detect_params in_path)) as [| | |rc out];
    try discriminate.
  apply parse_max_volume_not_nan.
Qed.

(** What [normalize_file] launches once the measure has returned [v]. *)
Lemma normalize_file_measured env d c i p tr v tr2 :
  ffmpeg_get_max_volume env (Path_str p)
    (tr ++ [Stdout ("> File " +:+ pretty (i + 1)%nat +:+ ": " +:+ Path_name p)])
  = (Return v, tr2) ->
  popen_calls (snd (normalize_file env d c i p tr))
  = popen_calls tr
    ++ [detect_params (Path_str p);
        convert_params (Path_str p) (Path_str (get_out_path d c p))
          (Flt (Float.abs v)) c].
Proof.
  intros Hm. rewrite normalize_file_eq, Hm.
  pose proof (ffmpeg_get_max_volume_trace _ _ _ _ _ Hm) as ->.
  rewrite target_volume_abs.
  destruct (call_ffmpeg env _ _) as [[o|e] tr3] eqn:Hc;
    pose proof (call_ffmpeg_trace _ _ _ _ _ Hc) as ->; cbn [snd];
    rewrite !popen_calls_app; simpl; rewrite !app_nil_r;
    now rewrite <- app_assoc.
Qed.

(** What [main.py]'s [normalize] launches once the measure has returned [v]
    and the output ends with [.wav]. *)
Lemma normalize_measured env s o tr input output v tr2 :
  main_py.get_path env s o = Return (input, output) ->
  main_py.ffmpeg_get_max_volume env (Path_str input) tr = (Return v, tr2) ->
  str_endswith ".wav" (Path_str output) = true ->
  popen_calls (snd (main_py.normalize env s o tr))
  = popen_calls tr
    ++ [detect_params (Path_str input);
        main_py.wav_params (Path_str input) (Path_str output) (Flt (Float.abs v))].
Proof.
  intros Hg Hm Hw. unfold main_py.normalize.
  rewrite bind_eq. unfold lift. rewrite Hg, bind_eq, Hm.
  pose proof (main_py_measure_trace _ _ _ _ _ Hm) as ->.
  unfold print, emit. rewrite bind_eq. cbn beta iota. rewrite bind_eq.
  cbn beta iota. unfold main_py.ffmpeg_convert_to_wav. rewrite Hw.
  cbn [negb]. rewrite target_volume_abs.
  destruct (run_process env _ _); cbn [snd];
    rewrite !popen_calls_app; simpl; rewrite !app_nil_r;
    now rewrite <- app_assoc.
Qed.

(** C1. For every max_volume [v] that the measuring pass returns for a file,
    the gain [max(abs(v), 0)] is the float [abs(v)], it is not below zero,
    and it is what the encoding pass of that file is launched with, in
    [do_normalizing] and in [main.py]'s [normalize] alike: the next launch
    after the measure carries [volume=] followed by [abs(v)] with one
    decimal and [dB].  A report of -3.2 gives [volume=3.2dB], one of 0.0
    gives [volume=0.0dB] and one of 2.0 gives [volume=2.0dB]: a positive
    max_volume is boosted, neither attenuated nor clamped to zero. *)
Theorem encode_pass_gain_is_abs_of_measured_volume :
  (forall env d c i p tr v tr2,
      ffmpeg_get_max_volume env (Path_str p)
        (tr ++ [Stdout ("> File " +:+ pretty (i + 1)%nat +:+ ": " +:+ Path_name p)])
      = (Return v, tr2) ->
      target_volume v = py_max (py_abs v) (Int 0)
      /\ target_volume v = Flt (Float.abs v)
      /\ Float.leb Float.zero (to_float (target_volume v)) = true
      /\ popen_calls (snd (normalize_file env d c i p tr))
         = popen_calls tr
           ++ [detect_params (Path_str p);
               convert_params (Path_str p) (Path_str (get_out_path d c p))
                 (Flt (Float.abs v)) c]
      /\ nth 7 (convert_params (Path_str p) (Path_str (get_out_path d c p))
                  (Flt (Float.abs v)) c) ""
         = "volume=" +:+ Float.format_1f (Float.abs v) +:+ "dB")
  /\ (forall env s o tr input output v tr2,
      main_py.get_path env s o = Return (input, output) ->
      main_py.ffmpeg_get_max_volume env (Path_str input) tr = (Return v, tr2) ->
      str_endswith ".wav" (Path_str output) = true ->
      Float.leb Float.zero (to_float (target_volume v)) = true
      /\ popen_calls (snd (main_py.normalize env s o tr))
         = popen_calls tr
           ++ [detect_params (Path_str input);
               main_py.wav_params (Path_str input) (Path_str output)
                 (Flt (Float.abs v))]
      /\ nth 7 (main_py.wav_params (Path_str input) (Path_str output)
                  (Flt (Float.abs v))) ""
         = "volume=" +:+ Float.format_1f (Float.abs v) +:+ "dB")
  /\ (Float.of_string "-3.2" = Some (SFopp f3_2)
      /\ target_volume (SFopp f3_2) = Flt f3_2
      /\ popen_calls (snd (run (Demo.env_printing (volume_line "-3.2"))
                             (Demo.args ["song.mp3"])))
         = [detect_params "/music/song.mp3";
            ["ffmpeg"; "-y"; "-i"; "/music/song.mp3"; "-map"; "0:a:0";
             "-af"; "volume=3.2dB"; "-c:a"; "pcm_s16le"; "/out/song-1.wav"]])
  /\ (Float.of_string "0.0" = Some Float.zero
      /\ target_volume Float.zero = Flt Float.zero
      /\ popen_calls (snd (run (Demo.env_printing (volume_line "0.0"))
                             (Demo.args ["song.mp3"])))
         = [detect_params "/music/song.mp3";
            ["ffmpeg"; "-y"; "-i"; "/music/song.mp3"; "-map"; "0:a:0";
             "-af"; "volume=0.0dB"; "-c:a"; "pcm_s16le"; "/out/song-1.wav"]])
  /\ (Float.of_string "2.0" = Some f2_0
      /\ target_volume f2_0 = Flt f2_0
      /\ popen_calls (snd (run (Demo.env_printing (volume_line "2.0"))
                             (Demo.args ["song.mp3"])))
         = [detect_params "/music/song.mp3";
            ["ffmpeg"; "-y"; "-i"; "/music/song.mp3"; "-map"; "0:a:0";
             "-af"; "volume=2.0dB"; "-c:a"; "pcm_s16le"; "/out/song-1.wav"]]).
Proof.
  split; [|split; [|repeat split; vm_compute; reflexivity]].
  - intros env d c i p tr v tr2 Hm.
    split; [reflexivity|]. split; [apply target_volume_abs|].
    split; [|split; [exact (normalize_file_measured _ _ _ _ _ _ _ _ Hm)|reflexivity]].
    rewrite target_volume_abs. apply abs_nonneg.
    eapply ffmpeg_get_max_volume_not_nan; eauto.
  - intros env s o tr input output v tr2 Hg Hm Hw.
    split; [|split; [eapply normalize_measured; eauto|reflexivity]].
    rewrite target_volume_abs. apply abs_nonneg.
    eapply main_py_measure_not_nan; eauto.
Qed.

Lemma encode_pass_gain_is_abs_of_measured_volume_witness :
  popen_calls (snd (normalize_file Demo.env (Path_of_string "/out") wav_preset 0
                      (Path_of_string "/music/song.mp3") []))
  = [detect_params "/music/song.mp3";
     convert_params "/music/song.mp3" "/out/song-1.wav"
       (Flt (Float.abs (SFopp f3_2))) wav_preset]
  /\ popen_calls (snd (main_py.normalize Demo.env "song.mp3" None []))
     = [detect_params "/music/song.mp3";
        main_py.wav_params "/music/song.mp3" "/music/song.wav"
          (Flt (Float.abs (SFopp f3_2)))].
Proof.
  split.
  - apply (proj1 (proj2 (proj2 (proj2
             (proj1 encode_pass_gain_is_abs_of_measured_volume
                Demo.env (Path_of_string "/out") wav_preset 0%nat
                (Path_of_string "/music/song.mp3") [] (SFopp f3_2)
                [Stdout "> File 1: song.mp3";
                 Popen (detect_params "/music/song.mp3")] eq_refl))))).
  - apply (proj1 (proj2
             (proj1 (proj2 encode_pass_gain_is_abs_of_measured_volume)
                Demo.env "song.mp3" None []
                (Path_of_string "/music/song.mp3")
                (Path_of_string "/music/song.wav") (SFopp f3_2)
                [Popen (detect_params "/music/song.mp3")]
                eq_refl eq_refl eq_refl))).
Defined.
